(** * Token-gated access gateway: credential issuance, refresh, revocation,
      the authorization gate and the rate limiters.

    Shallow embedding of [auth/tokenManager.ts], [auth/jwtIssuer.ts],
    [auth/jwtIssuerDynamic.ts], [auth/evmAuthMiddleware.ts],
    [middleware/rateLimiter.ts] and the route table of [startServer]
    in [index.ts].  The module-level registries ([refreshTokenStore],
    [tokenBlacklist], the rate-limit counters) become fields of an explicit
    state; a thrown [Error] becomes the [Throw] outcome of a state-and-error
    monad, which keeps the state changes made before the throw. *)

From stdpp Require Import gmap strings list fin_maps.
From Stdlib Require Import ZArith Lia Ascii.

Local Open Scope Z_scope.
Local Open Scope string_scope.

(** ** JavaScript truthiness of the values the code tests *)

(** [if (s)] for a string: the empty string is falsy. *)
Definition truthy (s : string) : bool := negb (String.eqb s "").

(** [if (o.field)] for an optional string field: [undefined] is falsy. *)
Definition truthy_opt (o : option string) : bool :=
  match o with
  | Some s => truthy s
  | None => false
  end.

(** ** The [jsonwebtoken] library, as far as the repository uses it *)

Module Claims.
(** The payload that [issueTokenPair] signs, with the [iat] and [exp]
    fields that [jwt.sign] adds.  [contract] and [issuedFor] are the
    [additionalClaims] of the dynamic issuer. *)
Record t := mk {
  sub : string;
  tokenId : Z;
  jti : string;
  type : string;
  contract : option string;
  issuedFor : option string;
  iat : Z;
  exp : Z
}.

Definition to_tuple (c : t) :=
  (sub c, tokenId c, jti c, type c, contract c, issuedFor c, iat c, exp c).

Definition of_tuple
    (x : string * Z * string * string * option string * option string * Z * Z) : t :=
  let '(a, b, c, d, e, f, g, h) := x in mk a b c d e f g h.

Lemma of_to_tuple c : of_tuple (to_tuple c) = c.
Proof. by destruct c. Qed.

#[global] Instance eq_dec : EqDecision t.
Proof. solve_decision. Defined.

#[global] Instance countable : Countable t :=
  inj_countable' to_tuple of_tuple of_to_tuple.
End Claims.

(** A serialized credential.  A token string is either the encoding of a
    payload together with the secret its signature was computed with, or a
    string that does not parse as a JWT at all.  HS256 signing is
    deterministic, so equal payload and secret give the same string. *)
Inductive Token :=
  | Signed (payload : Claims.t) (secret : string)
  | Unparsable (raw : string).

#[global] Instance Token_eq_dec : EqDecision Token.
Proof. solve_decision. Defined.

Definition Token_to_sum (t : Token) : Claims.t * string + string :=
  match t with
  | Signed p k => inl (p, k)
  | Unparsable s => inr s
  end.

Definition Token_of_sum (x : Claims.t * string + string) : Token :=
  match x with
  | inl (p, k) => Signed p k
  | inr s => Unparsable s
  end.

Lemma Token_of_to_sum t : Token_of_sum (Token_to_sum t) = t.
Proof. by destruct t. Qed.

#[global] Instance Token_countable : Countable Token :=
  inj_countable' Token_to_sum Token_of_sum Token_of_to_sum.

Module Jwt.
Inductive Error :=
  | JsonWebTokenError
  | TokenExpiredError.

#[global] Instance Error_eq_dec : EqDecision Error.
Proof. solve_decision. Defined.

(** [Math.floor(Date.now() / 1000)]: the clock is read in milliseconds,
    the claims are in whole seconds. *)
Definition clockTimestamp (now : Z) : Z := now `div` 1000.

(** [timespan(expiresIn, iat)] of the library for a string span that the
    [ms] package has turned into milliseconds:
    [Math.floor(iat + ms / 1000)]. *)
Definition timespan (ms : Z) (iat : Z) : Z := (iat * 1000 + ms) `div` 1000.

(** The fields the caller hands to [jwt.sign]. *)
Record Unsigned := {
  u_sub : string;
  u_tokenId : Z;
  u_jti : string;
  u_type : string;
  u_contract : option string;
  u_issuedFor : option string
}.

(** [jwt.sign(payload, secret, { expiresIn })] *)
Definition sign (now : Z) (u : Unsigned) (secret : string) (expiresIn : Z) : Token :=
  let timestamp := clockTimestamp now in
  Signed
    {| Claims.sub := u_sub u;
       Claims.tokenId := u_tokenId u;
       Claims.jti := u_jti u;
       Claims.type := u_type u;
       Claims.contract := u_contract u;
       Claims.issuedFor := u_issuedFor u;
       Claims.iat := timestamp;
       Claims.exp := timespan expiresIn timestamp |}
    secret.

(** [jwt.decode(token)]: the payload, without any check. *)
Definition decode (token : Token) : option Claims.t :=
  match token with
  | Signed p _ => Some p
  | Unparsable _ => None
  end.

(** [jwt.verify(token, secret)]: a missing or unparsable token and a
    signature made with another secret raise [JsonWebTokenError]; then
    the expiry is compared with the clock,
    [clockTimestamp >= payload.exp] raising [TokenExpiredError]. *)
Definition verify (now : Z) (token : option Token) (secret : string)
    : Error + Claims.t :=
  match token with
  | Some (Signed p k) =>
      if decide (k = secret) then
        if decide (Claims.exp p <= clockTimestamp now)
        then inl TokenExpiredError
        else inr p
      else inl JsonWebTokenError
  | Some (Unparsable _) | None => inl JsonWebTokenError
  end.
End Jwt.

(** ** Configuration and external collaborators *)

(** [config] together with the two expiry settings that
    [tokenManager.ts] reads from the environment.  The spans are in
    milliseconds, as [ms("15m")] and [ms("7d")] give them. *)
Record Config := {
  jwtSecret : string;
  requiredTokenId : Z;
  evmAuthAddress : string;
  ACCESS_TOKEN_EXPIRY : Z;
  REFRESH_TOKEN_EXPIRY : Z
}.

Definition ms_15m : Z := 15 * 60 * 1000.
Definition ms_7d : Z := 7 * 24 * 60 * 60 * 1000.

(** What [await evmAuth.balanceOf(...)] can do: resolve to a balance or
    reject. *)
Inductive OracleResult :=
  | Balance (b : N)
  | OracleRejects (message : string).

(** The collaborators outside the repository: the EVMAuth contract behind
    the RPC provider, [ethers.isAddress], [crypto.randomBytes], and the
    decoding chain
    [JSON.parse(Buffer.from(raw.split('.')[1], 'base64').toString()).sub]
    of the rate-limit key on a string that is not a well-formed JWT
    ([None] when the chain throws or yields no [sub]).  The random source
    is a sequence of draws; the state records how many have been
    consumed. *)
Record Env := {
  balanceOf : Z -> string -> string -> Z -> OracleResult;
  isAddress : string -> bool;
  randomBytes : nat -> string;
  payloadSub : string -> option string
}.

(** The clock readings of one call of [issueTokenPair], in the order the
    code takes them: [Date.now()] of its second line, which becomes
    [createdAt]; the reading inside [jwt.sign] for the access credential;
    the reading inside [jwt.sign] for the refresh credential.  All in
    milliseconds. *)
Record Readings := {
  atRecord : Z;
  atAccess : Z;
  atRefresh : Z
}.

(** The three readings falling on one millisecond. *)
Definition instant (t : Z) : Readings :=
  {| atRecord := t; atAccess := t; atRefresh := t |}.

(** ** [auth/tokenManager.ts] *)

Module TokenPair.
Record t := mk {
  accessToken : Token;
  refreshToken : Token;
  accessTokenExp : Z;
  refreshTokenExp : Z;
  jti : string
}.
End TokenPair.

Module RefreshTokenData.
Record t := mk {
  address : string;
  tokenId : Z;
  jti : string;
  createdAt : Z
}.
End RefreshTokenData.

(** A recorded call of the ownership oracle: contract, wallet, token id. *)
Record OracleQuery := {
  q_contract : string;
  q_wallet : string;
  q_tokenId : Z
}.

(** The process-wide mutable state of the authentication core. *)
Record World := {
  refreshTokenStore : gmap Token RefreshTokenData.t;
  tokenBlacklist : gset string;
  randomDraws : nat;
  oracleQueries : list OracleQuery
}.

Definition initialWorld : World :=
  {| refreshTokenStore := ∅; tokenBlacklist := ∅;
     randomDraws := 0%nat; oracleQueries := [] |}.

Definition set_store (f : gmap Token RefreshTokenData.t -> gmap Token RefreshTokenData.t)
    (w : World) : World :=
  {| refreshTokenStore := f (refreshTokenStore w);
     tokenBlacklist := tokenBlacklist w;
     randomDraws := randomDraws w;
     oracleQueries := oracleQueries w |}.

Definition set_blacklist (f : gset string -> gset string) (w : World) : World :=
  {| refreshTokenStore := refreshTokenStore w;
     tokenBlacklist := f (tokenBlacklist w);
     randomDraws := randomDraws w;
     oracleQueries := oracleQueries w |}.

(** The errors the issuing and refreshing code throws, one constructor per
    message. *)
Inductive Error :=
  | JwtError (e : Jwt.Error)
  | InvalidTokenType
  | RefreshTokenNotFound
  | TokenHasBeenRevoked
  | DoesNotHoldToken (wallet : string) (tokenId : Z) (contract : option string)
  | InvalidWalletAddress
  | InvalidContractAddress
  | InvalidTokenID
  | OracleFailure (message : string).

#[global] Instance Error_eq_dec : EqDecision Error.
Proof. solve_decision. Defined.

Inductive Outcome (A : Type) :=
  | Return (a : A)
  | Throw (e : Error).
Arguments Return {A} a.
Arguments Throw {A} e.

(** Computations over the world that may throw; the world reached before a
    throw is kept, as with a JavaScript exception. *)
Definition M (A : Type) : Type := World -> Outcome A * World.

Definition ret {A} (a : A) : M A := fun w => (Return a, w).
Definition throw {A} (e : Error) : M A := fun w => (Throw e, w).
Definition bind {A B} (m : M A) (k : A -> M B) : M B :=
  fun w =>
    match m w with
    | (Return a, w') => k a w'
    | (Throw e, w') => (Throw e, w')
    end.
Definition modify (f : World -> World) : M unit := fun w => (Return tt, f w).
Definition gets {A} (f : World -> A) : M A := fun w => (Return (f w), w).

Notation "'do' x <- m ; k" := (bind m (fun x => k))
  (at level 10, x name, m at level 100, k at level 200).
Notation "'run' m ; k" := (bind m (fun _ => k))
  (at level 10, m at level 100, k at level 200).

(** The [additionalClaims] object of the dynamic issuer. *)
Module AdditionalClaims.
Record t := mk {
  contract : string;
  issuedFor : string
}.
End AdditionalClaims.

Section TokenManager.
Context (cfg : Config) (env : Env).

(** [generateJti]: the next draw of the random source. *)
Definition generateJti : M string :=
  fun w =>
    (Return (randomBytes env (randomDraws w)),
     {| refreshTokenStore := refreshTokenStore w;
        tokenBlacklist := tokenBlacklist w;
        randomDraws := S (randomDraws w);
        oracleQueries := oracleQueries w |}).

(** [issueTokenPair].  The code reads the clock three times: for [now],
    which goes into the record as [createdAt], and inside each of the two
    [jwt.sign] calls, which stamp [iat] and [exp] on their credential. *)
Definition issueTokenPair (clock : Readings) (address : string) (tokenId : Z)
    (jwtSecret : string) (additionalClaims : option AdditionalClaims.t)
    : M TokenPair.t :=
  do jti <- generateJti;
  let now := Jwt.clockTimestamp (atRecord clock) in
  let accessToken :=
    Jwt.sign (atAccess clock)
      {| Jwt.u_sub := address; Jwt.u_tokenId := tokenId; Jwt.u_jti := jti;
         Jwt.u_type := "access";
         Jwt.u_contract := AdditionalClaims.contract <$> additionalClaims;
         Jwt.u_issuedFor := AdditionalClaims.issuedFor <$> additionalClaims |}
      jwtSecret (ACCESS_TOKEN_EXPIRY cfg) in
  let refreshToken :=
    Jwt.sign (atRefresh clock)
      {| Jwt.u_sub := address; Jwt.u_tokenId := tokenId; Jwt.u_jti := jti;
         Jwt.u_type := "refresh";
         Jwt.u_contract := AdditionalClaims.contract <$> additionalClaims;
         Jwt.u_issuedFor := AdditionalClaims.issuedFor <$> additionalClaims |}
      jwtSecret (REFRESH_TOKEN_EXPIRY cfg) in
  let accessExp := default 0 (Claims.exp <$> Jwt.decode accessToken) in
  let refreshExp := default 0 (Claims.exp <$> Jwt.decode refreshToken) in
  run modify (set_store
    <[ refreshToken :=
         {| RefreshTokenData.address := address;
            RefreshTokenData.tokenId := tokenId;
            RefreshTokenData.jti := jti;
            RefreshTokenData.createdAt := now |} ]>);
  ret {| TokenPair.accessToken := accessToken;
         TokenPair.refreshToken := refreshToken;
         TokenPair.accessTokenExp := accessExp;
         TokenPair.refreshTokenExp := refreshExp;
         TokenPair.jti := jti |}.

(** [revokeToken]: blacklist the identifier and drop every stored refresh
    token that carries it. *)
Definition revokeToken (jti : string) : M unit :=
  run modify (set_blacklist (fun b => {[ jti ]} ∪ b));
  modify (set_store
    (filter (fun kv : Token * RefreshTokenData.t => RefreshTokenData.jti kv.2 ≠ jti))).

Definition isTokenRevoked (jti : string) (w : World) : bool :=
  bool_decide (jti ∈ tokenBlacklist w).

(** [refreshAccessToken]: [now] is the clock reading of [jwt.verify],
    [clock] the readings of the [issueTokenPair] call that follows. *)
Definition refreshAccessToken (now : Z) (clock : Readings) (refreshToken : Token)
    (jwtSecret : string) : M TokenPair.t :=
  match Jwt.verify now (Some refreshToken) jwtSecret with
  | inl e => throw (JwtError e)
  | inr decoded =>
      if negb (String.eqb (Claims.type decoded) "refresh") then throw InvalidTokenType
      else
        do stored <- gets (fun w => refreshTokenStore w !! refreshToken);
        match stored with
        | None => throw RefreshTokenNotFound
        | Some storedData =>
            do revoked <- gets (isTokenRevoked (RefreshTokenData.jti storedData));
            if (revoked : bool) then
              run modify (set_store (delete refreshToken));
              throw TokenHasBeenRevoked
            else
              run revokeToken (RefreshTokenData.jti storedData);
              run modify (set_store (delete refreshToken));
              issueTokenPair clock
                (RefreshTokenData.address storedData)
                (RefreshTokenData.tokenId storedData)
                jwtSecret None
        end
  end.

(** The test of the cleanup loop on one stored key: its decoded expiry
    lies before the clock, or it does not decode and the [catch] branch
    takes it. *)
Definition expiredKey (now : Z) (token : Token) : bool :=
  match Jwt.decode token with
  | Some decoded => bool_decide (Claims.exp decoded < Jwt.clockTimestamp now)
  | None => true
  end.

(** [cleanupExpiredTokens]: drop the stored refresh tokens that test
    expired.  The blacklist is left as it is. *)
Definition cleanupExpiredTokens (now : Z) : M unit :=
  modify (set_store
    (filter (fun kv : Token * RefreshTokenData.t => expiredKey now kv.1 = false))).
End TokenManager.

(** ** [auth/jwtIssuer.ts] and [auth/jwtIssuerDynamic.ts] *)

(** The object both issuers and [refreshJwt] return. *)
Module IssuedTokens.
Record t := mk {
  accessToken : Token;
  refreshToken : Token;
  expiresIn : Z;
  refreshExpiresIn : Z
}.
End IssuedTokens.

Definition issuedOf (tokens : TokenPair.t) : IssuedTokens.t :=
  {| IssuedTokens.accessToken := TokenPair.accessToken tokens;
     IssuedTokens.refreshToken := TokenPair.refreshToken tokens;
     IssuedTokens.expiresIn := TokenPair.accessTokenExp tokens;
     IssuedTokens.refreshExpiresIn := TokenPair.refreshTokenExp tokens |}.

(** A JavaScript [number] as the dynamic issuer distinguishes them:
    an integer, or a value for which [Number.isInteger] is false. *)
Inductive JsNumber :=
  | JsInt (z : Z)
  | JsNotInteger.

Module DynamicAuthRequest.
Record t := mk {
  wallet : string;
  contract : string;
  tokenId : JsNumber
}.
End DynamicAuthRequest.

Section Issuers.
Context (cfg : Config) (env : Env).

(** [await new EVMAuth(contract, provider).balanceOf(wallet, tokenId)]:
    the call is recorded, then resolves or rejects as the oracle says. *)
Definition queryBalance (now : Z) (contract wallet : string) (tokenId : Z) : M N :=
  fun w =>
    let w' :=
      {| refreshTokenStore := refreshTokenStore w;
         tokenBlacklist := tokenBlacklist w;
         randomDraws := randomDraws w;
         oracleQueries :=
           oracleQueries w ++
           [{| q_contract := contract; q_wallet := wallet; q_tokenId := tokenId |}] |} in
    match balanceOf env now contract wallet tokenId with
    | Balance b => (Return b, w')
    | OracleRejects message => (Throw (OracleFailure message), w')
    end.

Definition issueJwt (now : Z) (clock : Readings) (address : string) (ip : string)
    : M IssuedTokens.t :=
  do balance <- queryBalance now (evmAuthAddress cfg) address (requiredTokenId cfg);
  if N.eqb balance 0 then
    throw (DoesNotHoldToken address (requiredTokenId cfg) None)
  else
    do tokens <- issueTokenPair cfg env clock address (requiredTokenId cfg)
                   (jwtSecret cfg) None;
    ret (issuedOf tokens).

Definition refreshJwt (now : Z) (clock : Readings) (refreshToken : Token)
    : M IssuedTokens.t :=
  do tokens <- refreshAccessToken cfg env now clock refreshToken (jwtSecret cfg);
  ret (issuedOf tokens).

Definition issueDynamicJwt (now : Z) (clock : Readings)
    (authRequest : DynamicAuthRequest.t) (ip : string) : M IssuedTokens.t :=
  let wallet := DynamicAuthRequest.wallet authRequest in
  let contract := DynamicAuthRequest.contract authRequest in
  if negb (isAddress env wallet) then throw InvalidWalletAddress
  else if negb (isAddress env contract) then throw InvalidContractAddress
  else
    match DynamicAuthRequest.tokenId authRequest with
    | JsNotInteger => throw InvalidTokenID
    | JsInt tokenId =>
        if Z.ltb tokenId 0 then throw InvalidTokenID
        else
          do balance <- queryBalance now contract wallet tokenId;
          if N.eqb balance 0 then
            throw (DoesNotHoldToken wallet tokenId (Some contract))
          else
            do tokens <- issueTokenPair cfg env clock wallet tokenId (jwtSecret cfg)
                           (Some {| AdditionalClaims.contract := contract;
                                    AdditionalClaims.issuedFor := "Starbucks Premium MCP" |});
            ret (issuedOf tokens)
    end.
End Issuers.

(** ** [auth/evmAuthMiddleware.ts] *)

(** The 401 responses of the gate, one constructor per [error] string. *)
Inductive GateError :=
  | MissingAuthorizationHeader
  | GateInvalidTokenType
  | GateTokenRevoked
  | InvalidTokenIdInJwt
  | TokenExpired
  | InvalidToken
  | AuthenticationFailed.

Inductive GateResult :=
  | Next (jwtPayload : Claims.t)
  | Unauthorized (error : GateError).

#[global] Instance GateError_eq_dec : EqDecision GateError.
Proof. solve_decision. Defined.

(** An [Authorization] header value, already cut at the spaces as
    [authHeader.split(" ")] does; an absent or empty header is [None]. *)
Definition AuthHeader : Type := option (list Token).

Definition bearer (token : Token) : AuthHeader := Some [Unparsable "Bearer"; token].

Section Gate.
Context (cfg : Config).

Definition evmAuthMiddleware (now : Z) (authHeader : AuthHeader) (w : World)
    : GateResult :=
  match authHeader with
  | None => Unauthorized MissingAuthorizationHeader
  | Some parts =>
      let token := parts !! 1%nat in
      match Jwt.verify now token (jwtSecret cfg) with
      | inl Jwt.TokenExpiredError => Unauthorized TokenExpired
      | inl Jwt.JsonWebTokenError => Unauthorized InvalidToken
      | inr payload =>
          if negb (String.eqb (Claims.type payload) "access") then
            Unauthorized GateInvalidTokenType
          else if truthy (Claims.jti payload) && isTokenRevoked (Claims.jti payload) w then
            Unauthorized GateTokenRevoked
          else if truthy_opt (Claims.contract payload) then
            Next payload
          else if negb (Z.eqb (Claims.tokenId payload) (requiredTokenId cfg)) then
            Unauthorized InvalidTokenIdInJwt
          else
            Next payload
      end
  end.
End Gate.

(** ** [middleware/rateLimiter.ts] and the route table of [index.ts] *)

(** What a request asks for, as far as the middleware chain tells
    requests apart: the four POST routes of the auth core with the fields
    they read from the parsed body, any other method on a path under
    [/mcp], any other route, an OPTIONS preflight on whatever path, and a
    request on whatever path whose JSON body [express.json()] cannot
    parse. *)
Inductive Target :=
  | PostAuth (address : option string)
  | PostAuthRefresh (refreshToken : option Token)
  | PostAuthDynamic (wallet contract : option string) (tokenId : option JsNumber)
  | PostAuthRevoke (jti : option string)
  | McpEndpoint
  | OtherRoute
  | Preflight
  | UnparsableBody.


Record Request := {
  req_ip : string;
  authorization : AuthHeader;
  target : Target
}.

(** The [sub] that [getKey]'s own decoding finds in a bearer string: the
    payload's [sub] for a JWT, whose second dot-segment is its payload, and
    what the decoding chain yields for any other string. *)
Definition unverifiedSub (env : Env) (token : Token) : option string :=
  match token with
  | Signed payload _ => Some (Claims.sub payload)
  | Unparsable raw => payloadSub env raw
  end.

(** [getKey]: the [sub] of the bearer string, decoded without
    verification, when there is a non-empty one; the network origin
    otherwise. *)
Definition getKey (env : Env) (req : Request) : string :=
  match authorization req with
  | Some (Unparsable "Bearer" :: token :: _) =>
      match unverifiedSub env token with
      | Some sub => if truthy sub then sub else req_ip req
      | None => req_ip req
      end
  | _ => req_ip req
  end.

Module RateLimit.
(** The options of [rateLimit({...})] that decide the outcome. *)
Record Options := {
  windowMs : Z;
  max : Z;
  keyGenerator : Request -> string
}.

(** One counter of the memory store of [express-rate-limit]. *)
Record Client := {
  totalHits : Z;
  resetTime : Z
}.

(** [store.increment(key)]: a counter whose window has elapsed starts
    again with a new reset time, then the hit is counted. *)
Definition increment (opts : Options) (now : Z) (key : string)
    (store : gmap string Client) : Client * gmap string Client :=
  let fresh := {| totalHits := 0; resetTime := now + windowMs opts |} in
  let client :=
    match store !! key with
    | Some c => if decide (resetTime c <= now) then fresh else c
    | None => fresh
    end in
  let counted := {| totalHits := totalHits client + 1; resetTime := resetTime client |} in
  (counted, <[ key := counted ]> store).

(** The middleware: [Some retryAfter] when the request is answered with
    429, [None] when it is passed on. *)
Definition apply (opts : Options) (now : Z) (req : Request)
    (store : gmap string Client) : option Z * gmap string Client :=
  let '(client, store') := increment opts now (keyGenerator opts req) store in
  (if decide (max opts < totalHits client) then Some (resetTime client) else None,
   store').
End RateLimit.

Definition authLimiter (env : Env) : RateLimit.Options :=
  {| RateLimit.windowMs := 15 * 60 * 1000;
     RateLimit.max := 5;
     RateLimit.keyGenerator := getKey env |}.

Definition mcpLimiter (env : Env) : RateLimit.Options :=
  {| RateLimit.windowMs := 60 * 1000;
     RateLimit.max := 100;
     RateLimit.keyGenerator := getKey env |}.

Definition generalLimiter : RateLimit.Options :=
  {| RateLimit.windowMs := 15 * 60 * 1000;
     RateLimit.max := 100;
     RateLimit.keyGenerator := req_ip |}.

Inductive Limiter := GeneralLimiter | AuthLimiter | McpLimiter.

(** The answers of the server: the handlers' own, the 401 of the gate,
    the 429 of a limiter, the 200 of the CORS middleware to a preflight
    and the 400 of the error path of the body parser. *)
Inductive Response :=
  | Tokens200 (tokens : IssuedTokens.t)
  | BadRequest400 (error : string)
  | Thrown401 (error : Error)
  | Gate401 (error : GateError)
  | TooManyRequests429 (limiter : Limiter) (retryAfter : Z)
  | RevokeSuccess200
    | McpHandler (jwtPayload : Claims.t)
  | Unrouted
  | Preflight200
  | BodyParseError400.


Record Server := {
  generalHits : gmap string RateLimit.Client;
  authHits : gmap string RateLimit.Client;
  mcpHits : gmap string RateLimit.Client;
  world : World
}.

Definition initialServer : Server :=
  {| generalHits := ∅; authHits := ∅; mcpHits := ∅; world := initialWorld |}.

Section Server.
Context (cfg : Config) (env : Env).

(** A handler's [try { ... res.json(tokens) } catch (e) { res.status(401) }]. *)
Definition respond (m : M IssuedTokens.t) (srv : Server) : Response * Server :=
  let '(outcome, w) := m (world srv) in
  (match outcome with
   | Return tokens => Tokens200 tokens
   | Throw e => Thrown401 e
   end,
   {| generalHits := generalHits srv; authHits := authHits srv;
      mcpHits := mcpHits srv; world := w |}).

Definition authHandler (now : Z) (clock : Readings) (req : Request)
    (address : option string) (srv : Server) : Response * Server :=
  match address with
  | Some a =>
      if truthy a then respond (issueJwt cfg env now clock a (req_ip req)) srv
      else (BadRequest400 "Missing address", srv)
  | None => (BadRequest400 "Missing address", srv)
  end.

Definition refreshHandler (now : Z) (clock : Readings) (refreshToken : option Token)
    (srv : Server) : Response * Server :=
  match refreshToken with
  | None | Some (Unparsable "") => (BadRequest400 "Missing refresh token", srv)
  | Some token => respond (refreshJwt cfg env now clock token) srv
  end.

Definition missingRequiredFields : string :=
  "Missing required fields. Please provide wallet, contract, and tokenId".

Definition dynamicAuthHandler (now : Z) (clock : Readings) (req : Request)
    (wallet contract : option string) (tokenId : option JsNumber)
    (srv : Server) : Response * Server :=
  match wallet, contract, tokenId with
  | Some w, Some c, Some n =>
      if truthy w && truthy c then
        respond (issueDynamicJwt cfg env now clock
                   {| DynamicAuthRequest.wallet := w;
                      DynamicAuthRequest.contract := c;
                      DynamicAuthRequest.tokenId := n |}
                   (req_ip req)) srv
      else (BadRequest400 missingRequiredFields, srv)
  | _, _, _ => (BadRequest400 missingRequiredFields, srv)
  end.

Definition revokeHandler (req : Request) (jti : option string)
    (srv : Server) : Response * Server :=
  match authorization req with
  | None => (Gate401 MissingAuthorizationHeader, srv)
  | Some _ =>
      match jti with
      | Some j =>
          if truthy j then
            (RevokeSuccess200,
             {| generalHits := generalHits srv; authHits := authHits srv;
                mcpHits := mcpHits srv;
                world := (revokeToken j (world srv)).2 |})
          else (BadRequest400 "Missing jti to revoke", srv)
      | None => (BadRequest400 "Missing jti to revoke", srv)
      end
  end.

(** [app.use(generalLimiter)] *)
Definition withGeneralLimiter (now : Z) (req : Request)
    (k : Server -> Response * Server) (srv : Server) : Response * Server :=
  let '(limited, hits) := RateLimit.apply generalLimiter now req (generalHits srv) in
  let srv' := {| generalHits := hits; authHits := authHits srv;
                 mcpHits := mcpHits srv; world := world srv |} in
  match limited with
  | Some retryAfter => (TooManyRequests429 GeneralLimiter retryAfter, srv')
  | None => k srv'
  end.

Definition withAuthLimiter (now : Z) (req : Request)
    (k : Server -> Response * Server) (srv : Server) : Response * Server :=
  let '(limited, hits) := RateLimit.apply (authLimiter env) now req (authHits srv) in
  let srv' := {| generalHits := generalHits srv; authHits := hits;
                 mcpHits := mcpHits srv; world := world srv |} in
  match limited with
  | Some retryAfter => (TooManyRequests429 AuthLimiter retryAfter, srv')
  | None => k srv'
  end.

Definition withMcpLimiter (now : Z) (req : Request)
    (k : Server -> Response * Server) (srv : Server) : Response * Server :=
  let '(limited, hits) := RateLimit.apply (mcpLimiter env) now req (mcpHits srv) in
  let srv' := {| generalHits := generalHits srv; authHits := authHits srv;
                 mcpHits := hits; world := world srv |} in
  match limited with
  | Some retryAfter => (TooManyRequests429 McpLimiter retryAfter, srv')
  | None => k srv'
  end.

Definition withGate (now : Z) (req : Request)
    (k : Claims.t -> Server -> Response * Server) (srv : Server) : Response * Server :=
  match evmAuthMiddleware cfg now (authorization req) (world srv) with
  | Unauthorized e => (Gate401 e, srv)
  | Next payload => k payload srv
  end.

(** The middleware chains that [startServer] mounts.  First
    [app.use(express.json())]: a body that fails to parse is passed to
    the error handler, which answers 400, and no later middleware sees
    the request.  Then [app.use(generalLimiter)]; then the CORS
    middleware, which answers an OPTIONS request itself with 200; then
    route by route:
    [app.post("/auth", authLimiter, authHandler)],
    [app.post("/auth/refresh", refreshHandler)],
    [app.post("/auth/dynamic", authLimiter, dynamicAuthHandler)],
    [app.post("/auth/revoke", evmAuthMiddleware, revokeHandler)],
    [app.use("/mcp", mcpLimiter, evmAuthMiddleware)]. *)
Definition handle (now : Z) (clock : Readings) (req : Request)
    : Server -> Response * Server :=
  match target req with
  | UnparsableBody => fun srv => (BodyParseError400, srv)
  | PostAuth address =>
      withGeneralLimiter now req
        (withAuthLimiter now req (authHandler now clock req address))
  | PostAuthRefresh refreshToken =>
      withGeneralLimiter now req (refreshHandler now clock refreshToken)
  | PostAuthDynamic wallet contract tokenId =>
      withGeneralLimiter now req
        (withAuthLimiter now req
           (dynamicAuthHandler now clock req wallet contract tokenId))
  | PostAuthRevoke jti =>
      withGeneralLimiter now req
        (withGate now req (fun _ => revokeHandler req jti))
  | McpEndpoint =>
      withGeneralLimiter now req
        (withMcpLimiter now req
           (withGate now req (fun payload srv => (McpHandler payload, srv))))
    | OtherRoute => withGeneralLimiter now req (fun srv => (Unrouted, srv))
  | Preflight => withGeneralLimiter now req (fun srv => (Preflight200, srv))
  end.

(** A sequence of requests, oldest first, each with the clock reading of
    its middleware and the readings a minting it triggers would take; the
    responses come back in the same order. *)
Fixpoint serve (reqs : list (Z * Readings * Request)) (srv : Server)
    : list Response * Server :=
  match reqs with
  | [] => ([], srv)
  | (now, clock, req) :: rest =>
      let '(r, srv') := handle now clock req srv in
      let '(rs, srv'') := serve rest srv' in
      (r :: rs, srv'')
  end.
End Server.

(** ** Running the core from its initial state *)

(** The entry points of the authentication core, with the clock readings
    each call makes: [now] where the call verifies a credential, queries
    the oracle or sweeps the store, [clock] where it mints a pair. *)
Inductive Call :=
  | CallIssueJwt (now : Z) (clock : Readings) (address ip : string)
  | CallIssueDynamicJwt (now : Z) (clock : Readings)
      (authRequest : DynamicAuthRequest.t) (ip : string)
  | CallRefreshJwt (now : Z) (clock : Readings) (refreshToken : Token)
  | CallRevokeToken (jti : string)
  | CallCleanupExpiredTokens (now : Z).

Section Calls.
Context (cfg : Config) (env : Env).

Definition exec (w : World) (c : Call) : World :=
  match c with
  | CallIssueJwt now clock address ip => (issueJwt cfg env now clock address ip w).2
  | CallIssueDynamicJwt now clock authRequest ip =>
      (issueDynamicJwt cfg env now clock authRequest ip w).2
  | CallRefreshJwt now clock refreshToken =>
      (refreshJwt cfg env now clock refreshToken w).2
  | CallRevokeToken jti => (revokeToken jti w).2
  | CallCleanupExpiredTokens now => (cleanupExpiredTokens now w).2
  end.

Definition execAll (calls : list Call) (w : World) : World := foldl exec w calls.
End Calls.

(** ** A reference deployment, for concrete runs *)

(** The settings of [.env.example]: required token 0, 15 minutes and
    7 days. *)
Definition refConfig : Config :=
  {| jwtSecret := "your-secret-key-here-change-this-in-production";
     requiredTokenId := 0;
     evmAuthAddress := "0x5448Dc20ad9e0cDb5Dd0db25e814545d1aa08D96";
     ACCESS_TOKEN_EXPIRY := ms_15m;
     REFRESH_TOKEN_EXPIRY := ms_7d |}.

Definition isHexDigit (a : ascii) : bool :=
  let n := nat_of_ascii a in
  ((48 <=? n) && (n <=? 57) || (65 <=? n) && (n <=? 70) || (97 <=? n) && (n <=? 102))%nat.

(** A syntactic stand-in for [ethers.isAddress] in concrete runs: [0x]
    followed by forty hexadecimal digits. *)
Definition hexAddress (s : string) : bool :=
  match s with
  | String "0"%char (String "x"%char rest) =>
      (String.length rest =? 40)%nat && forallb isHexDigit (String.list_ascii_of_string rest)
  | _ => false
  end.

Definition alice : string := "0x1111111111111111111111111111111111111111".
Definition bob : string := "0x2222222222222222222222222222222222222222".
Definition otherContract : string := "0x3333333333333333333333333333333333333333".

(** Identifiers that never repeat: the [n]-th draw is [n + 1] letters. *)
Fixpoint letters (n : nat) : string :=
  match n with
  | O => "a"
  | S n' => String "a"%char (letters n')
  end.

(** Alice holds one token of every id on every contract, nobody else
    holds any; a malformed wallet makes the call reject.  Of the strings
    that are not JWTs, the decoding chain of the rate-limit key succeeds
    on [x.eyJzdWIiOiJtYWxsb3J5In0], whose second segment is the base64 of
    [{"sub":"mallory"}]. *)
Definition refEnv : Env :=
  {| balanceOf := fun _ _ wallet _ =>
       if negb (hexAddress wallet) then OracleRejects "invalid address"
       else if String.eqb wallet alice then Balance 1 else Balance 0;
     isAddress := hexAddress;
     randomBytes := letters;
     payloadSub := fun raw =>
       if String.eqb raw "x.eyJzdWIiOiJtYWxsb3J5In0" then Some "mallory" else None |}.

(** * Vocabulary of the properties, and sample runs *)

(** What "otherwise valid" means at the gate: signed with the configured
    secret, of kind [access], not revoked, and meeting the requirement
    check. *)
Definition otherwiseValid (cfg : Config) (w : World) (token : Token) (p : Claims.t) : Prop :=
  token = Signed p (jwtSecret cfg) /\
  Claims.type p = "access" /\
  (Claims.jti p ∉ tokenBlacklist w) /\
  (truthy_opt (Claims.contract p) = true \/ Claims.tokenId p = requiredTokenId cfg).

(** Concrete credentials of the reference deployment, minted at clock
    reading 1000 ms. *)
Definition aliceUnsigned (kind : string) : Jwt.Unsigned :=
  {| Jwt.u_sub := alice; Jwt.u_tokenId := 0; Jwt.u_jti := "a"; Jwt.u_type := kind;
     Jwt.u_contract := None; Jwt.u_issuedFor := None |}.

Definition aliceAccess : Token :=
  Jwt.sign 1000 (aliceUnsigned "access") (jwtSecret refConfig) ms_15m.

Definition aliceRefresh : Token :=
  Jwt.sign 1000 (aliceUnsigned "refresh") (jwtSecret refConfig) ms_7d.

Definition claimsOf (token : Token) : Claims.t :=
  default (Claims.mk "" 0 "" "" None None 0 0) (Jwt.decode token).

(** A dynamic grant for token 42 of another contract. *)
Definition aliceDynamicAccess : Token :=
  Jwt.sign 1000
    {| Jwt.u_sub := alice; Jwt.u_tokenId := 42; Jwt.u_jti := "a";
       Jwt.u_type := "access";
       Jwt.u_contract := Some otherContract;
       Jwt.u_issuedFor := Some "Starbucks Premium MCP" |}
    (jwtSecret refConfig) ms_15m.

(** What one call of [issueTokenPair] does: it consumes one random draw
    as the [jti], signs the two credentials over it, and records the
    refresh credential; nothing else changes. *)
Record Minted (cfg : Config) (env : Env) (clock : Readings) (address : string) (tokenId : Z)
    (secret : string) (extra : option AdditionalClaims.t)
    (w : World) (pair : TokenPair.t) (w' : World) : Prop := {
  minted_jti : TokenPair.jti pair = randomBytes env (randomDraws w);
  minted_access :
    TokenPair.accessToken pair =
    Signed {| Claims.sub := address; Claims.tokenId := tokenId;
              Claims.jti := TokenPair.jti pair; Claims.type := "access";
              Claims.contract := AdditionalClaims.contract <$> extra;
              Claims.issuedFor := AdditionalClaims.issuedFor <$> extra;
              Claims.iat := Jwt.clockTimestamp (atAccess clock);
              Claims.exp := Jwt.clockTimestamp (atAccess clock)
                            + ACCESS_TOKEN_EXPIRY cfg `div` 1000 |}
           secret;
  minted_refresh :
    TokenPair.refreshToken pair =
    Signed {| Claims.sub := address; Claims.tokenId := tokenId;
              Claims.jti := TokenPair.jti pair; Claims.type := "refresh";
              Claims.contract := AdditionalClaims.contract <$> extra;
              Claims.issuedFor := AdditionalClaims.issuedFor <$> extra;
              Claims.iat := Jwt.clockTimestamp (atRefresh clock);
              Claims.exp := Jwt.clockTimestamp (atRefresh clock)
                            + REFRESH_TOKEN_EXPIRY cfg `div` 1000 |}
           secret;
  minted_accessExp :
    TokenPair.accessTokenExp pair =
    Jwt.clockTimestamp (atAccess clock) + ACCESS_TOKEN_EXPIRY cfg `div` 1000;
  minted_refreshExp :
    TokenPair.refreshTokenExp pair =
    Jwt.clockTimestamp (atRefresh clock) + REFRESH_TOKEN_EXPIRY cfg `div` 1000;
  minted_store :
    refreshTokenStore w' =
    <[ TokenPair.refreshToken pair :=
         {| RefreshTokenData.address := address;
            RefreshTokenData.tokenId := tokenId;
            RefreshTokenData.jti := TokenPair.jti pair;
            RefreshTokenData.createdAt := Jwt.clockTimestamp (atRecord clock) |} ]>
      (refreshTokenStore w);
  minted_blacklist : tokenBlacklist w' = tokenBlacklist w;
  minted_draws : randomDraws w' = S (randomDraws w);
  minted_queries : oracleQueries w' = oracleQueries w
}.

(** The pair invariant of an issued credential pair: both credentials are
    signed payloads of the two kinds over one [jti], and the reported
    expiries are the embedded ones. *)
Definition siblingPair (t : IssuedTokens.t) : Prop :=
  exists pa pr secret,
    IssuedTokens.accessToken t = Signed pa secret /\
    IssuedTokens.refreshToken t = Signed pr secret /\
    Claims.type pa = "access" /\
    Claims.type pr = "refresh" /\
    Claims.jti pa = Claims.jti pr /\
    IssuedTokens.expiresIn t = Claims.exp pa /\
    IssuedTokens.refreshExpiresIn t = Claims.exp pr.

(** Every Session Record is keyed by a signed credential whose embedded
    identifier, subject and token id are the recorded ones, and its
    identifier is one of the draws already taken from the random source. *)
Definition storeConsistent (env : Env) (w : World) : Prop :=
  forall token data,
    refreshTokenStore w !! token = Some data ->
    exists p secret draw,
      token = Signed p secret /\
      Claims.jti p = RefreshTokenData.jti data /\
      Claims.sub p = RefreshTokenData.address data /\
      Claims.tokenId p = RefreshTokenData.tokenId data /\
      (draw < randomDraws w)%nat /\
      RefreshTokenData.jti data = randomBytes env draw.

(** How the world may change in one step of the core: the revocation set
    only grows, draws are only consumed, and a consistent store stays
    consistent. *)
Definition evolves (env : Env) (w w' : World) : Prop :=
  tokenBlacklist w ⊆ tokenBlacklist w' /\
  (randomDraws w <= randomDraws w')%nat /\
  (storeConsistent env w -> storeConsistent env w').

Definition Preserving {A} (env : Env) (m : M A) : Prop :=
  forall w, evolves env w (m w).2.

(** The world in which [refreshAccessToken] mints the new pair: the old
    identifier is blacklisted, every record that carries it is dropped, and
    so is the record of the presented credential. *)
Definition rotated (token : Token) (jti : string) (w : World) : World :=
  set_store (delete token)
    (set_store
       (filter (fun kv : Token * RefreshTokenData.t => RefreshTokenData.jti kv.2 ≠ jti))
       (set_blacklist (fun b => {[ jti ]} ∪ b) w)).

(** The world after Alice has been issued her first pair at 1000 ms. *)
Definition aliceWorld : World :=
  execAll refConfig refEnv [CallIssueJwt 1000 (instant 1000) alice "198.51.100.7"] initialWorld.

(** The pair that the refresh of Alice's first refresh credential at
    5000 ms returns, and the world it leaves. *)
Definition alicePair2 : TokenPair.t :=
  {| TokenPair.accessToken :=
       Jwt.sign 5000
         {| Jwt.u_sub := alice; Jwt.u_tokenId := 0; Jwt.u_jti := "aa";
            Jwt.u_type := "access"; Jwt.u_contract := None;
            Jwt.u_issuedFor := None |} (jwtSecret refConfig) ms_15m;
     TokenPair.refreshToken :=
       Jwt.sign 5000
         {| Jwt.u_sub := alice; Jwt.u_tokenId := 0; Jwt.u_jti := "aa";
            Jwt.u_type := "refresh"; Jwt.u_contract := None;
            Jwt.u_issuedFor := None |} (jwtSecret refConfig) ms_7d;
     TokenPair.accessTokenExp := 905;
     TokenPair.refreshTokenExp := 604805;
     TokenPair.jti := "aa" |}.

Definition aliceWorld2 : World :=
  (refreshAccessToken refConfig refEnv 5000 (instant 5000) aliceRefresh
     (jwtSecret refConfig) aliceWorld).2.



(** Readings of one minting that straddle a second boundary: the record
    and the access credential are stamped in second 0, the refresh
    credential in second 1. *)
Definition straddling : Readings :=
  {| atRecord := 998; atAccess := 999; atRefresh := 1001 |}.

(** Alice's first pair minted over those readings: the record says
    [createdAt = 0], its key was issued in second 1. *)
Definition straddledWorld : World :=
  execAll refConfig refEnv [CallIssueJwt 900 straddling alice "198.51.100.7"]
    initialWorld.

Definition straddledRefresh : Token :=
  Jwt.sign (atRefresh straddling) (aliceUnsigned "refresh") (jwtSecret refConfig) ms_7d.


(** The pair invariant under a configuration and the clock readings of
    the minting: a sibling pair; each expiry is the second of its own
    signature plus its configured lifetime in whole seconds; and the
    access expiry is before the refresh expiry whenever the clock did not
    step back between the two signatures and the configured access
    lifetime is the shorter one in whole seconds. *)
Definition pairInvariant (cfg : Config) (clock : Readings) (t : IssuedTokens.t) : Prop :=
  siblingPair t /\
  IssuedTokens.expiresIn t =
    Jwt.clockTimestamp (atAccess clock) + ACCESS_TOKEN_EXPIRY cfg `div` 1000 /\
  IssuedTokens.refreshExpiresIn t =
    Jwt.clockTimestamp (atRefresh clock) + REFRESH_TOKEN_EXPIRY cfg `div` 1000 /\
  (atAccess clock <= atRefresh clock ->
   ACCESS_TOKEN_EXPIRY cfg `div` 1000 < REFRESH_TOKEN_EXPIRY cfg `div` 1000 ->
   IssuedTokens.expiresIn t < IssuedTokens.refreshExpiresIn t).

(** A deployment whose two expiry settings are the other way round:
    [ACCESS_TOKEN_EXPIRY=7d], [REFRESH_TOKEN_EXPIRY=15m]. *)
Definition swappedConfig : Config :=
  {| jwtSecret := jwtSecret refConfig;
     requiredTokenId := requiredTokenId refConfig;
     evmAuthAddress := evmAuthAddress refConfig;
     ACCESS_TOKEN_EXPIRY := ms_7d;
     REFRESH_TOKEN_EXPIRY := ms_15m |}.

(** The dynamic grant used below: Alice, token 42 of another contract. *)
Definition dynamicRequest : DynamicAuthRequest.t :=
  {| DynamicAuthRequest.wallet := alice;
     DynamicAuthRequest.contract := otherContract;
     DynamicAuthRequest.tokenId := JsInt 42 |}.

Definition dynamicIssue : Outcome IssuedTokens.t * World :=
  issueDynamicJwt refConfig refEnv 1000 (instant 1000) dynamicRequest "198.51.100.7" initialWorld.

Definition dynamicFirst : IssuedTokens.t :=
  match dynamicIssue.1 with
  | Return t => t
  | Throw _ => IssuedTokens.mk (Unparsable "") (Unparsable "") 0 0
  end.

Definition dynamicRefresh : Outcome IssuedTokens.t * World :=
  refreshJwt refConfig refEnv 5000 (instant 5000)
    (IssuedTokens.refreshToken dynamicFirst) dynamicIssue.2.

(** Requests from one network origin, one second apart. *)
Definition everySecond (t : Target) (n : nat) : list (Z * Readings * Request) :=
  map (fun i : nat =>
         (1000 * Z.of_nat (S i), instant (1000 * Z.of_nat (S i)),
          {| req_ip := "198.51.100.7"; authorization := None; target := t |}))
      (seq 0 n).

(** What a Session Record of a deployment looks like: its key is a
    refresh credential signed with the configured secret, whose subject,
    token id and identifier are the recorded ones and whose expiry is its
    own issued-at second plus the refresh lifetime.  The recorded
    [createdAt] comes from an earlier clock reading than the key's
    issued-at second and is not tied to it. *)
Definition recordOf (cfg : Config) (token : Token) (data : RefreshTokenData.t) : Prop :=
  exists p,
    token = Signed p (jwtSecret cfg) /\
    Claims.type p = "refresh" /\
    Claims.sub p = RefreshTokenData.address data /\
    Claims.tokenId p = RefreshTokenData.tokenId data /\
    Claims.jti p = RefreshTokenData.jti data /\
    Claims.exp p = Claims.iat p + REFRESH_TOKEN_EXPIRY cfg `div` 1000.

Definition storeWellKeyed (cfg : Config) (w : World) : Prop :=
  forall token data,
    refreshTokenStore w !! token = Some data -> recordOf cfg token data.

Definition Keeping {A} (cfg : Config) (m : M A) : Prop :=
  forall w, storeWellKeyed cfg w -> storeWellKeyed cfg (m w).2.

(** The limiter middleware run over a sequence of timed requests, oldest
    first: for each request whether it was answered 429, and the counters
    at the end. *)
Fixpoint applyAll (opts : RateLimit.Options) (reqs : list (Z * Request))
    (store : gmap string RateLimit.Client)
    : list (option Z) * gmap string RateLimit.Client :=
  match reqs with
  | [] => ([], store)
  | (now, req) :: rest =>
      let '(limited, store') := RateLimit.apply opts now req store in
      let '(results, store'') := applyAll opts rest store' in
      (limited :: results, store'')
  end.

(** * Properties *)

(** ** Clock and expiry arithmetic *)

Lemma clockTimestamp_lt (now e : Z) : Jwt.clockTimestamp now < e <-> now < 1000 * e.
Proof.
  unfold Jwt.clockTimestamp. split; intros H.
  - apply Z.nle_gt. intros Hle. apply Z.nle_gt in H. apply H.
    apply Z.div_le_lower_bound; lia.
  - apply Z.div_lt_upper_bound; lia.
Qed.

Lemma timespan_seconds (span iat : Z) :
  Jwt.timespan span iat = iat + span `div` 1000.
Proof.
  unfold Jwt.timespan. rewrite Z.add_comm, Z.div_add by lia. lia.
Qed.

Lemma verify_inr now token secret p :
  Jwt.verify now token secret = inr p <->
  token = Some (Signed p secret) /\ Jwt.clockTimestamp now < Claims.exp p.
Proof.
  unfold Jwt.verify. split.
  - destruct token as [[q k|raw]|]; try discriminate.
    destruct (decide (k = secret)) as [->|]; [|discriminate].
    destruct (decide (Claims.exp q <= Jwt.clockTimestamp now)); [discriminate|].
    intros [= ->]. split; [done | lia].
  - intros [-> Hlt]. rewrite decide_True by done.
    rewrite decide_False by lia. done.
Qed.

Lemma verify_expired now p secret :
  Claims.exp p <= Jwt.clockTimestamp now ->
  Jwt.verify now (Some (Signed p secret)) secret = inl Jwt.TokenExpiredError.
Proof.
  intros H. unfold Jwt.verify. rewrite decide_True by done.
  by rewrite decide_True.
Qed.

(** ** The authorization gate *)

Lemma truthy_true (s : string) : truthy s = true <-> s <> "".
Proof.
  unfold truthy. destruct (String.eqb_spec s ""); simpl; split; congruence.
Qed.

Lemma string_eqb_false (a b : string) : a <> b -> String.eqb a b = false.
Proof. intros H. by apply String.eqb_neq. Qed.

(** The gate admits a payload only after every check on it has passed. *)
Lemma gate_next_inv cfg now header w payload :
  evmAuthMiddleware cfg now header w = Next payload ->
  exists parts,
    header = Some parts /\
    Jwt.verify now (parts !! 1%nat) (jwtSecret cfg) = inr payload /\
    Claims.type payload = "access" /\
    (truthy (Claims.jti payload) = true -> Claims.jti payload ∉ tokenBlacklist w) /\
    (truthy_opt (Claims.contract payload) = true \/
     Claims.tokenId payload = requiredTokenId cfg).
Proof.
  unfold evmAuthMiddleware. destruct header as [parts|]; [|discriminate].
  destruct (Jwt.verify now (parts !! 1%nat) (jwtSecret cfg)) as [[]|p] eqn:Hv;
    try discriminate.
  destruct (String.eqb_spec (Claims.type p) "access") as [Hty|]; [|discriminate].
  simpl. unfold isTokenRevoked.
  destruct (truthy (Claims.jti p)) eqn:Hj; simpl.
  - case_bool_decide as Hb; [discriminate|].
    destruct (truthy_opt (Claims.contract p)) eqn:Hc.
    + intros [= <-]. exists parts. eauto 10.
    + destruct (Z.eqb_spec (Claims.tokenId p) (requiredTokenId cfg)); [|discriminate].
      intros [= <-]. exists parts. eauto 10.
  - destruct (truthy_opt (Claims.contract p)) eqn:Hc.
    + intros [= <-]. exists parts. split_and!; eauto; intros; congruence.
    + destruct (Z.eqb_spec (Claims.tokenId p) (requiredTokenId cfg)); [|discriminate].
      intros [= <-]. exists parts. split_and!; eauto; intros; congruence.
Qed.

(** The gate's answer for a credential that verified, is an access
    credential and is not revoked: only the requirement check is left. *)
Lemma gate_after_revocation_check cfg now parts w p :
  Jwt.verify now (parts !! 1%nat) (jwtSecret cfg) = inr p ->
  Claims.type p = "access" ->
  Claims.jti p ∉ tokenBlacklist w ->
  evmAuthMiddleware cfg now (Some parts) w =
    if truthy_opt (Claims.contract p) then Next p
    else if negb (Z.eqb (Claims.tokenId p) (requiredTokenId cfg))
         then Unauthorized InvalidTokenIdInJwt
         else Next p.
Proof.
  intros Hv Hty Hrev. unfold evmAuthMiddleware. rewrite Hv, Hty. simpl.
  unfold isTokenRevoked. rewrite bool_decide_eq_false_2 by done.
  by rewrite andb_false_r.
Qed.

(** C3.  A presented credential whose kind is not [access] (a refresh
    credential in particular) is never admitted by the gate, whatever the
    clock, the revocation set and its other claims are; once its signature
    and expiry have verified, the rejection is the wrong-kind one
    ("Invalid token type"). *)
Theorem gate_rejects_refresh_kind cfg now parts w token p :
  parts !! 1%nat = Some token ->
  Jwt.decode token = Some p ->
  Claims.type p <> "access" ->
  (forall payload, evmAuthMiddleware cfg now (Some parts) w <> Next payload) /\
  (forall q, Jwt.verify now (Some token) (jwtSecret cfg) = inr q ->
     evmAuthMiddleware cfg now (Some parts) w = Unauthorized GateInvalidTokenType).
Proof.
  intros Hparts Hdec Hty.
  destruct token as [p' k|raw]; simpl in Hdec; [|discriminate].
  injection Hdec as ->. split.
  - intros payload Hnext.
    apply gate_next_inv in Hnext as (parts' & [= <-] & Hv & Hacc & _).
    rewrite Hparts in Hv. apply verify_inr in Hv as [[= -> _] _]. done.
  - intros q Hv. unfold evmAuthMiddleware. rewrite Hparts, Hv.
    apply verify_inr in Hv as [[= -> _] _].
    by rewrite string_eqb_false.
Qed.

(** C4.  For a verified, non-revoked access credential: with a contract
    claim (a non-empty contract address, as the dynamic issuer embeds) it
    is admitted without any comparison of its token id with the
    configuration; without a contract claim it is admitted exactly when its
    token id equals the configured required token id, and is otherwise
    rejected with the requirement mismatch ("Invalid tokenId in JWT"). *)
Theorem gate_requirement_asymmetry cfg now parts w p :
  Jwt.verify now (parts !! 1%nat) (jwtSecret cfg) = inr p ->
  Claims.type p = "access" ->
  Claims.jti p ∉ tokenBlacklist w ->
  (forall c, Claims.contract p = Some c -> c <> "" ->
     evmAuthMiddleware cfg now (Some parts) w = Next p) /\
  (Claims.contract p = None ->
     (Claims.tokenId p = requiredTokenId cfg ->
        evmAuthMiddleware cfg now (Some parts) w = Next p) /\
     (Claims.tokenId p <> requiredTokenId cfg ->
        evmAuthMiddleware cfg now (Some parts) w = Unauthorized InvalidTokenIdInJwt)).
Proof.
  intros Hv Hty Hrev.
  rewrite (gate_after_revocation_check _ _ _ _ _ Hv Hty Hrev).
  split.
  - intros c Hc Hne. rewrite Hc. simpl.
    by rewrite (proj2 (truthy_true c) Hne).
  - intros Hc. rewrite Hc. simpl. split; intros Hid.
    + by rewrite (proj2 (Z.eqb_eq _ _) Hid).
    + by rewrite (proj2 (Z.eqb_neq _ _) Hid).
Qed.

(** C7.  An otherwise-valid access credential is admitted at every clock
    reading (in milliseconds) strictly before its expiry instant
    [1000 * exp] and rejected with the expired reason ("Token expired") at
    that instant and at every later one. *)
Theorem gate_expiry_boundary cfg now parts w token p :
  parts !! 1%nat = Some token ->
  otherwiseValid cfg w token p ->
  (now < 1000 * Claims.exp p ->
     evmAuthMiddleware cfg now (Some parts) w = Next p) /\
  (1000 * Claims.exp p <= now ->
     evmAuthMiddleware cfg now (Some parts) w = Unauthorized TokenExpired).
Proof.
  intros Hparts (-> & Hty & Hrev & Hreq). split; intros Hnow.
  - assert (Hv : Jwt.verify now (parts !! 1%nat) (jwtSecret cfg) = inr p).
    { rewrite Hparts. apply verify_inr. split; [done|].
      by apply clockTimestamp_lt. }
    rewrite (gate_after_revocation_check _ _ _ _ _ Hv Hty Hrev).
    destruct Hreq as [-> | Hid]; [done|].
    destruct (truthy_opt (Claims.contract p)); [done|].
    by rewrite (proj2 (Z.eqb_eq _ _) Hid).
  - unfold evmAuthMiddleware. rewrite Hparts.
    rewrite verify_expired; [done|].
    apply Z.nlt_ge. intros Hlt. apply clockTimestamp_lt in Hlt. lia.
Qed.

Lemma gate_rejects_refresh_kind_witness :
  (forall payload,
     evmAuthMiddleware refConfig 2000 (bearer aliceRefresh) initialWorld <> Next payload) /\
  (forall q, Jwt.verify 2000 (Some aliceRefresh) (jwtSecret refConfig) = inr q ->
     evmAuthMiddleware refConfig 2000 (bearer aliceRefresh) initialWorld
     = Unauthorized GateInvalidTokenType).
Proof.
  apply (gate_rejects_refresh_kind refConfig 2000
           [Unparsable "Bearer"; aliceRefresh] initialWorld
           aliceRefresh (claimsOf aliceRefresh)).
  - reflexivity.
  - reflexivity.
  - vm_compute. discriminate.
Defined.

Lemma gate_requirement_asymmetry_witness :
  (forall c, Claims.contract (claimsOf aliceDynamicAccess) = Some c -> c <> "" ->
     evmAuthMiddleware refConfig 2000 (bearer aliceDynamicAccess) initialWorld
     = Next (claimsOf aliceDynamicAccess)) /\
  (Claims.contract (claimsOf aliceDynamicAccess) = None ->
     (Claims.tokenId (claimsOf aliceDynamicAccess) = requiredTokenId refConfig ->
        evmAuthMiddleware refConfig 2000 (bearer aliceDynamicAccess) initialWorld
        = Next (claimsOf aliceDynamicAccess)) /\
     (Claims.tokenId (claimsOf aliceDynamicAccess) <> requiredTokenId refConfig ->
        evmAuthMiddleware refConfig 2000 (bearer aliceDynamicAccess) initialWorld
        = Unauthorized InvalidTokenIdInJwt)).
Proof.
  apply (gate_requirement_asymmetry refConfig 2000
           [Unparsable "Bearer"; aliceDynamicAccess] initialWorld
           (claimsOf aliceDynamicAccess)).
  - vm_compute. reflexivity.
  - reflexivity.
  - apply not_elem_of_empty.
Defined.

Lemma gate_expiry_boundary_witness :
  (2000 < 1000 * Claims.exp (claimsOf aliceAccess) ->
     evmAuthMiddleware refConfig 2000 (bearer aliceAccess) initialWorld
     = Next (claimsOf aliceAccess)) /\
  (1000 * Claims.exp (claimsOf aliceAccess) <= 2000 ->
     evmAuthMiddleware refConfig 2000 (bearer aliceAccess) initialWorld
     = Unauthorized TokenExpired).
Proof.
  apply (gate_expiry_boundary refConfig 2000
           [Unparsable "Bearer"; aliceAccess] initialWorld
           aliceAccess (claimsOf aliceAccess)).
  - reflexivity.
  - unfold otherwiseValid. split_and!.
    + reflexivity.
    + reflexivity.
    + apply not_elem_of_empty.
    + right. reflexivity.
Defined.

(** ** Minting *)

Lemma issueTokenPair_minted cfg env clock address tokenId secret extra w :
  exists pair w',
    issueTokenPair cfg env clock address tokenId secret extra w = (Return pair, w') /\
    Minted cfg env clock address tokenId secret extra w pair w'.
Proof.
  eexists _, _. split.
  - cbv [issueTokenPair bind generateJti modify ret]. reflexivity.
  - split; unfold Jwt.sign; simpl; rewrite ?timespan_seconds; reflexivity.
Qed.

Lemma issueTokenPair_inv cfg env clock address tokenId secret extra w out w' :
  issueTokenPair cfg env clock address tokenId secret extra w = (out, w') ->
  exists pair, out = Return pair /\
    Minted cfg env clock address tokenId secret extra w pair w'.
Proof.
  destruct (issueTokenPair_minted cfg env clock address tokenId secret extra w)
    as (pair & w1 & Heq & Hm).
  rewrite Heq. intros [= <- <-]. eauto.
Qed.

Lemma minted_sibling cfg env clock address tokenId secret extra w pair w' :
  Minted cfg env clock address tokenId secret extra w pair w' ->
  pairInvariant cfg clock (issuedOf pair).
Proof.
  intros Hm. split.
  - eexists _, _, _. unfold issuedOf. simpl.
    split; [apply (minted_access _ _ _ _ _ _ _ _ _ _ Hm)|].
    split; [apply (minted_refresh _ _ _ _ _ _ _ _ _ _ Hm)|].
    simpl. split_and!; try reflexivity.
    + apply (minted_accessExp _ _ _ _ _ _ _ _ _ _ Hm).
    + apply (minted_refreshExp _ _ _ _ _ _ _ _ _ _ Hm).
  - unfold issuedOf. simpl.
    rewrite (minted_accessExp _ _ _ _ _ _ _ _ _ _ Hm).
    rewrite (minted_refreshExp _ _ _ _ _ _ _ _ _ _ Hm).
    split_and!; [reflexivity..|].
    intros Hclock Hlife.
    assert (Jwt.clockTimestamp (atAccess clock) <= Jwt.clockTimestamp (atRefresh clock)).
    { unfold Jwt.clockTimestamp. apply Z.div_le_mono; lia. }
    lia.
Qed.

(** ** The issuers *)

Lemma issueJwt_holder cfg env now clock address ip w b :
  balanceOf env now (evmAuthAddress cfg) address (requiredTokenId cfg) = Balance b ->
  b <> 0%N ->
  exists pair w',
    issueJwt cfg env now clock address ip w = (Return (issuedOf pair), w') /\
    Minted cfg env clock address (requiredTokenId cfg) (jwtSecret cfg) None
      {| refreshTokenStore := refreshTokenStore w;
         tokenBlacklist := tokenBlacklist w;
         randomDraws := randomDraws w;
         oracleQueries :=
           oracleQueries w ++
           [{| q_contract := evmAuthAddress cfg; q_wallet := address;
               q_tokenId := requiredTokenId cfg |}] |}
      pair w'.
Proof.
  intros Hbal Hb. unfold issueJwt, bind, queryBalance. rewrite Hbal.
  rewrite (proj2 (N.eqb_neq b 0) Hb). cbn beta iota.
  destruct (issueTokenPair _ _ _ _ _ _ _ _) as [out w1] eqn:Heq.
  apply issueTokenPair_inv in Heq as (pair & -> & Hm).
  by exists pair, w1.
Qed.

Lemma issueDynamicJwt_inv cfg env now clock req ip w t w' :
  issueDynamicJwt cfg env now clock req ip w = (Return t, w') ->
  exists tokenId pair w0,
    isAddress env (DynamicAuthRequest.wallet req) = true /\
    isAddress env (DynamicAuthRequest.contract req) = true /\
    DynamicAuthRequest.tokenId req = JsInt tokenId /\ 0 <= tokenId /\
    t = issuedOf pair /\
    Minted cfg env clock (DynamicAuthRequest.wallet req) tokenId (jwtSecret cfg)
      (Some {| AdditionalClaims.contract := DynamicAuthRequest.contract req;
               AdditionalClaims.issuedFor := "Starbucks Premium MCP" |})
      w0 pair w' /\
    refreshTokenStore w0 = refreshTokenStore w /\
    tokenBlacklist w0 = tokenBlacklist w /\
    randomDraws w0 = randomDraws w.
Proof.
  unfold issueDynamicJwt.
  destruct (isAddress env (DynamicAuthRequest.wallet req)) eqn:Hw; simpl; [|discriminate].
  destruct (isAddress env (DynamicAuthRequest.contract req)) eqn:Hc; simpl; [|discriminate].
  destruct (DynamicAuthRequest.tokenId req) as [tokenId|] eqn:Hid; [|discriminate].
  destruct (Z.ltb_spec tokenId 0); [discriminate|].
  unfold bind, queryBalance.
  destruct (balanceOf env now (DynamicAuthRequest.contract req)
              (DynamicAuthRequest.wallet req) tokenId); [|discriminate].
  destruct (N.eqb b 0); [discriminate|]. cbn beta iota.
  destruct (issueTokenPair _ _ _ _ _ _ _ _) as [out w1] eqn:Heq.
  apply issueTokenPair_inv in Heq as (pair & -> & Hm).
  intros [= <- <-]. eexists tokenId, pair, _.
  split_and!; done.
Qed.

(** The contract claim of a dynamically issued pair is the address the
    request named, which [isAddress] accepted; it is non-empty as soon as
    [isAddress] rejects the empty string. *)
Lemma dynamic_grant_contract cfg env now clock req ip w t w' :
  issueDynamicJwt cfg env now clock req ip w = (Return t, w') ->
  exists a,
    Jwt.decode (IssuedTokens.accessToken t) = Some a /\
    Claims.contract a = Some (DynamicAuthRequest.contract req) /\
    isAddress env (DynamicAuthRequest.contract req) = true /\
    (isAddress env "" = false -> truthy_opt (Claims.contract a) = true).
Proof.
  intros Heq.
  apply issueDynamicJwt_inv in Heq
    as (tokenId & pair & w0 & _ & Hc & _ & _ & -> & Hm & _).
  unfold issuedOf. simpl.
  rewrite (minted_access _ _ _ _ _ _ _ _ _ _ Hm). simpl.
  eexists. split; [reflexivity|]. simpl. split; [reflexivity|].
  split; [exact Hc|]. intros Hempty. apply truthy_true.
  intros Heq. rewrite Heq, Hempty in Hc. discriminate.
Qed.

(** ** Invariants of the session store and the revocation set *)

Section Invariants.
Context (cfg : Config) (env : Env).

Lemma evolves_refl w : evolves env w w.
Proof. by split. Qed.

Lemma evolves_trans w1 w2 w3 :
  evolves env w1 w2 -> evolves env w2 w3 -> evolves env w1 w3.
Proof.
  intros (H1 & H2 & H3) (H4 & H5 & H6). split; [set_solver|]. split; [lia | auto].
Qed.

Lemma preserving_ret {A} (a : A) : Preserving env (ret a).
Proof. intros w. apply evolves_refl. Qed.

Lemma preserving_throw {A} e : Preserving env (@throw A e).
Proof. intros w. apply evolves_refl. Qed.

Lemma preserving_gets {A} (f : World -> A) : Preserving env (gets f).
Proof. intros w. apply evolves_refl. Qed.

Lemma preserving_bind {A B} (m : M A) (k : A -> M B) :
  Preserving env m -> (forall a, Preserving env (k a)) -> Preserving env (bind m k).
Proof.
  intros Hm Hk w. unfold bind. specialize (Hm w).
  destruct (m w) as [[a|e] w1]; simpl in *; [|done].
  eapply evolves_trans; [exact Hm | apply Hk].
Qed.

Lemma preserving_shrink (f : gmap Token RefreshTokenData.t -> gmap Token RefreshTokenData.t) :
  (forall m, f m ⊆ m) -> Preserving env (modify (set_store f)).
Proof.
  intros Hf w. split; simpl; [done|]. split; [done|].
  intros Hc token data Hl. apply (Hc token data).
  eapply lookup_weaken; [exact Hl | apply Hf].
Qed.

Lemma preserving_blacklist (f : gset string -> gset string) :
  (forall b, b ⊆ f b) -> Preserving env (modify (set_blacklist f)).
Proof. intros Hf w. split; simpl; [apply Hf | done]. Qed.

Lemma minted_evolves clock address tokenId secret extra w pair w' :
  Minted cfg env clock address tokenId secret extra w pair w' -> evolves env w w'.
Proof.
  intros Hm. split; [|split].
  - by rewrite (minted_blacklist _ _ _ _ _ _ _ _ _ _ Hm).
  - rewrite (minted_draws _ _ _ _ _ _ _ _ _ _ Hm). lia.
  - intros Hc token data. rewrite (minted_store _ _ _ _ _ _ _ _ _ _ Hm).
    rewrite (minted_draws _ _ _ _ _ _ _ _ _ _ Hm).
    rewrite lookup_insert_Some. intros [[<- <-] | [_ Hl]].
    + rewrite (minted_refresh _ _ _ _ _ _ _ _ _ _ Hm). simpl.
      eexists _, _, (randomDraws w). split_and!; try reflexivity; [lia|].
      exact (minted_jti _ _ _ _ _ _ _ _ _ _ Hm).
    + destruct (Hc _ _ Hl) as (p & k & draw & H1 & H2 & H3 & H4 & H5 & H6).
      exists p, k, draw. split_and!; try done. lia.
Qed.

Lemma preserving_issueTokenPair clock address tokenId secret extra :
  Preserving env (issueTokenPair cfg env clock address tokenId secret extra).
Proof.
  intros w.
  destruct (issueTokenPair_minted cfg env clock address tokenId secret extra w)
    as (pair & w' & Heq & Hm).
  rewrite Heq. simpl. eapply minted_evolves, Hm.
Qed.

Lemma preserving_revokeToken jti : Preserving env (revokeToken jti).
Proof.
  apply preserving_bind.
  - apply preserving_blacklist. set_solver.
  - intros _. apply preserving_shrink. intros m. apply map_filter_subseteq.
Qed.

Lemma preserving_delete token : Preserving env (modify (set_store (delete token))).
Proof. apply preserving_shrink. intros m. apply delete_subseteq. Qed.

Lemma preserving_refreshAccessToken now clock token secret :
  Preserving env (refreshAccessToken cfg env now clock token secret).
Proof.
  unfold refreshAccessToken.
  destruct (Jwt.verify now (Some token) secret) as [e|decoded];
    [apply preserving_throw|].
  destruct (negb _); [apply preserving_throw|].
  apply preserving_bind; [apply preserving_gets|].
  intros [storedData|]; [|apply preserving_throw].
  apply preserving_bind; [apply preserving_gets|].
  intros [].
  - apply preserving_bind; [apply preserving_delete|].
    intros _. apply preserving_throw.
  - apply preserving_bind; [apply preserving_revokeToken|].
    intros _. apply preserving_bind; [apply preserving_delete|].
    intros _. apply preserving_issueTokenPair.
Qed.

Lemma preserving_cleanupExpiredTokens now : Preserving env (cleanupExpiredTokens now).
Proof. apply preserving_shrink. intros m. apply map_filter_subseteq. Qed.

Lemma preserving_queryBalance now contract wallet tokenId :
  Preserving env (queryBalance env now contract wallet tokenId).
Proof.
  intros w. unfold queryBalance.
  destruct (balanceOf env now contract wallet tokenId); simpl; by split.
Qed.

Lemma preserving_issued {A} clock address tokenId secret extra (f : TokenPair.t -> A) :
  Preserving env
    (do tokens <- issueTokenPair cfg env clock address tokenId secret extra;
     ret (f tokens)).
Proof.
  apply preserving_bind; [apply preserving_issueTokenPair|].
  intros tokens. apply preserving_ret.
Qed.

Lemma preserving_issueJwt now clock address ip :
  Preserving env (issueJwt cfg env now clock address ip).
Proof.
  apply preserving_bind; [apply preserving_queryBalance|].
  intros balance. destruct (N.eqb balance 0); [apply preserving_throw|].
  apply preserving_issued.
Qed.

Lemma preserving_refreshJwt now clock token :
  Preserving env (refreshJwt cfg env now clock token).
Proof.
  apply preserving_bind; [apply preserving_refreshAccessToken|].
  intros tokens. apply preserving_ret.
Qed.

Lemma preserving_issueDynamicJwt now clock req ip :
  Preserving env (issueDynamicJwt cfg env now clock req ip).
Proof.
  unfold issueDynamicJwt.
  destruct (negb (isAddress env (DynamicAuthRequest.wallet req)));
    [apply preserving_throw|].
  destruct (negb (isAddress env (DynamicAuthRequest.contract req)));
    [apply preserving_throw|].
  destruct (DynamicAuthRequest.tokenId req) as [tokenId|]; [|apply preserving_throw].
  destruct (Z.ltb tokenId 0); [apply preserving_throw|].
  apply preserving_bind; [apply preserving_queryBalance|].
  intros balance. destruct (N.eqb balance 0); [apply preserving_throw|].
  apply preserving_issued.
Qed.

Lemma exec_evolves w c : evolves env w (exec cfg env w c).
Proof.
  destruct c; simpl.
  - apply preserving_issueJwt.
  - apply preserving_issueDynamicJwt.
  - apply preserving_refreshJwt.
  - apply preserving_revokeToken.
  - apply preserving_cleanupExpiredTokens.
Qed.

Lemma execAll_evolves calls w : evolves env w (execAll cfg env calls w).
Proof.
  revert w. induction calls as [|c calls IH]; intros w; simpl.
  - apply evolves_refl.
  - eapply evolves_trans; [apply exec_evolves | apply IH].
Qed.

Lemma initialWorld_consistent : storeConsistent env initialWorld.
Proof. intros token data. simpl. by rewrite lookup_empty. Qed.

Lemma reachable_consistent calls :
  storeConsistent env (execAll cfg env calls initialWorld).
Proof.
  apply (execAll_evolves calls initialWorld), initialWorld_consistent.
Qed.

End Invariants.

(** ** Refresh *)

Lemma refreshAccessToken_return_inv cfg env now clock token secret w pair w' :
  refreshAccessToken cfg env now clock token secret w = (Return pair, w') ->
  exists p data,
    token = Signed p secret /\
    Jwt.clockTimestamp now < Claims.exp p /\
    Claims.type p = "refresh" /\
    refreshTokenStore w !! token = Some data /\
    (RefreshTokenData.jti data ∉ tokenBlacklist w) /\
    Minted cfg env clock (RefreshTokenData.address data) (RefreshTokenData.tokenId data)
      secret None (rotated token (RefreshTokenData.jti data) w) pair w'.
Proof.
  unfold refreshAccessToken.
  destruct (Jwt.verify now (Some token) secret) as [e|p] eqn:Hv; [discriminate|].
  apply verify_inr in Hv as [[= ->] Hexp].
  destruct (String.eqb_spec (Claims.type p) "refresh") as [Hty|]; [|discriminate].
  simpl. unfold bind at 1, gets.
  destruct (refreshTokenStore w !! Signed p secret) as [data|] eqn:Hl; [|discriminate].
  unfold bind at 1, gets, isTokenRevoked.
  case_bool_decide as Hb; [discriminate|].
  unfold bind, revokeToken, modify, bind. cbn beta iota.
  intros Heq. apply issueTokenPair_inv in Heq as (pair' & [= <-] & Hm).
  exists p, data. split_and!; done.
Qed.

(** Replaying a refresh credential whose identifier is blacklisted never
    succeeds on a consistent store. *)
Lemma refreshAccessToken_replay cfg env now clock p secret w :
  storeConsistent env w ->
  Claims.type p = "refresh" ->
  Claims.jti p ∈ tokenBlacklist w ->
  exists e w',
    refreshAccessToken cfg env now clock (Signed p secret) secret w = (Throw e, w') /\
    (Jwt.clockTimestamp now < Claims.exp p ->
       e = RefreshTokenNotFound \/ e = TokenHasBeenRevoked) /\
    (Claims.exp p <= Jwt.clockTimestamp now -> e = JwtError Jwt.TokenExpiredError).
Proof.
  intros Hc Hty Hrev. unfold refreshAccessToken, Jwt.verify.
  rewrite decide_True by done.
  destruct (decide (Claims.exp p <= Jwt.clockTimestamp now)) as [Hexp|Hexp].
  { eexists _, _. split; [reflexivity|]. split; [lia | done]. }
  rewrite Hty. simpl. unfold bind at 1, gets.
  destruct (refreshTokenStore w !! Signed p secret) as [data|] eqn:Hl.
  - destruct (Hc _ _ Hl) as (p' & k & draw & [= <- <-] & Hjti & _).
    unfold bind at 1, gets, isTokenRevoked.
    rewrite bool_decide_eq_true_2 by (by rewrite <- Hjti).
    eexists _, _. split; [reflexivity|]. split; [auto | lia].
  - eexists _, _. split; [reflexivity|]. split; [auto | lia].
Qed.

(** On every successful refresh the new pair keeps the subject and the
    token id of the credential it replaces, and carries no contract
    claim. *)
Lemma refresh_minted_claims cfg env now clock token w pair w' :
  storeConsistent env w ->
  refreshAccessToken cfg env now clock token (jwtSecret cfg) w = (Return pair, w') ->
  exists old a2 r2,
    Jwt.decode token = Some old /\
    Jwt.decode (TokenPair.accessToken pair) = Some a2 /\
    Jwt.decode (TokenPair.refreshToken pair) = Some r2 /\
    Claims.sub a2 = Claims.sub old /\ Claims.sub r2 = Claims.sub old /\
    Claims.tokenId a2 = Claims.tokenId old /\ Claims.tokenId r2 = Claims.tokenId old /\
    Claims.contract a2 = None /\ Claims.contract r2 = None.
Proof.
  intros Hc Hr.
  apply refreshAccessToken_return_inv in Hr
    as (p & data & -> & _ & _ & Hl & _ & Hm).
  destruct (Hc _ _ Hl) as (p' & k & draw & [= <- <-] & _ & Hsub & Hid & _).
  rewrite (minted_access _ _ _ _ _ _ _ _ _ _ Hm).
  rewrite (minted_refresh _ _ _ _ _ _ _ _ _ _ Hm).
  eexists _, _, _. simpl. split_and!; try reflexivity; done.
Qed.

(** C1 (amended).  After a successful refresh of [r] in a reachable
    world: the old [jti] is in the revocation set and stays there through
    every later call of the core; the new credentials both carry the
    identifier just drawn from the random source, which differs from the
    old one whenever that draw repeats none of the earlier draws; and
    every later refresh of [r] throws, with "Refresh token not found" or
    "Token has been revoked" as long as [r] is unexpired and with the
    expired-token error from its expiry instant on. *)
Theorem rotation_invariant cfg env calls now clock r pair w1 :
  refreshAccessToken cfg env now clock r (jwtSecret cfg)
    (execAll cfg env calls initialWorld) = (Return pair, w1) ->
  exists old a2 r2,
    Jwt.decode r = Some old /\
    Claims.jti old ∈ tokenBlacklist w1 /\
    Jwt.decode (TokenPair.accessToken pair) = Some a2 /\
    Jwt.decode (TokenPair.refreshToken pair) = Some r2 /\
    Claims.jti a2 = TokenPair.jti pair /\
    Claims.jti r2 = TokenPair.jti pair /\
    TokenPair.jti pair =
      randomBytes env (randomDraws (execAll cfg env calls initialWorld)) /\
    ((forall draw,
        (draw < randomDraws (execAll cfg env calls initialWorld))%nat ->
        randomBytes env draw <>
        randomBytes env (randomDraws (execAll cfg env calls initialWorld))) ->
     TokenPair.jti pair <> Claims.jti old) /\
    forall later now' clock',
      Claims.jti old ∈ tokenBlacklist (execAll cfg env later w1) /\
      exists e w3,
        refreshAccessToken cfg env now' clock' r (jwtSecret cfg) (execAll cfg env later w1)
        = (Throw e, w3) /\
        (now' < 1000 * Claims.exp old ->
           e = RefreshTokenNotFound \/ e = TokenHasBeenRevoked) /\
        (1000 * Claims.exp old <= now' -> e = JwtError Jwt.TokenExpiredError).
Proof.
  intros Hr.
  pose proof (reachable_consistent cfg env calls) as Hc0.
  pose proof (preserving_refreshAccessToken cfg env now clock r (jwtSecret cfg)
                (execAll cfg env calls initialWorld)) as (_ & _ & Hev).
  rewrite Hr in Hev. simpl in Hev.
  apply refreshAccessToken_return_inv in Hr
    as (p & data & -> & _ & Hty & Hl & _ & Hm).
  destruct (Hc0 _ _ Hl) as (p' & k & draw & [= <- <-] & Hjti & _ & _ & Hdrawn & Hdraw).
  assert (Hin : Claims.jti p ∈ tokenBlacklist w1).
  { rewrite (minted_blacklist _ _ _ _ _ _ _ _ _ _ Hm). simpl.
    rewrite Hjti. set_solver. }
  exists p. eexists _, _. split; [reflexivity|]. split; [exact Hin|].
  rewrite (minted_access _ _ _ _ _ _ _ _ _ _ Hm).
  rewrite (minted_refresh _ _ _ _ _ _ _ _ _ _ Hm). simpl.
  split; [reflexivity|]. split; [reflexivity|].
  split; [reflexivity|]. split; [reflexivity|].
  split; [exact (minted_jti _ _ _ _ _ _ _ _ _ _ Hm)|].
  split.
  { intros Hfresh. rewrite (minted_jti _ _ _ _ _ _ _ _ _ _ Hm), Hjti, Hdraw.
    simpl. intros Heq. by apply (Hfresh draw Hdrawn). }
  intros later now'.
  destruct (execAll_evolves cfg env later w1) as (Hsub & _ & Hcons).
  split; [set_solver|].
  destruct (refreshAccessToken_replay cfg env now' clock' p (jwtSecret cfg)
              (execAll cfg env later w1)) as (e & w3 & Heq & Hlive & Hdead).
  - apply Hcons, Hev, Hc0.
  - exact Hty.
  - set_solver.
  - exists e, w3. split; [exact Heq|]. split; intros Hnow.
    + apply Hlive. by apply clockTimestamp_lt.
    + apply Hdead. apply Z.nlt_ge. intros Hlt.
      apply clockTimestamp_lt in Hlt. lia.
Qed.

Lemma outcome_with_world {A} (x : Outcome A * World) (o : Outcome A) :
  x.1 = o -> x = (o, x.2).
Proof. destruct x. simpl. by intros ->. Qed.

Lemma alice_first_refresh :
  refreshAccessToken refConfig refEnv 5000 (instant 5000) aliceRefresh
    (jwtSecret refConfig) aliceWorld
  = (Return alicePair2, aliceWorld2).
Proof. unfold aliceWorld2. apply outcome_with_world. vm_compute. reflexivity. Qed.

Lemma rotation_invariant_witness :
  "a" ∈ tokenBlacklist aliceWorld2 /\
  TokenPair.jti alicePair2 <> "a" /\
  exists e w3,
    refreshAccessToken refConfig refEnv 6000 (instant 6000) aliceRefresh
      (jwtSecret refConfig) aliceWorld2
    = (Throw e, w3) /\
    (e = RefreshTokenNotFound \/ e = TokenHasBeenRevoked).
Proof.
  pose proof alice_first_refresh as Hfirst. unfold aliceWorld in Hfirst.
  destruct (rotation_invariant refConfig refEnv
              [CallIssueJwt 1000 (instant 1000) alice "198.51.100.7"] 5000 (instant 5000)
      aliceRefresh alicePair2 aliceWorld2 Hfirst)
    as (old & a2 & r2 & Hold & Hin & _ & _ & _ & _ & _ & Hfresh & Hlater).
  injection Hold as <-.
  split; [exact Hin|].
  split.
  { apply Hfresh. intros draw Hdraw.
    assert (draw = 0%nat) as -> by exact (proj1 (Nat.lt_1_r draw) Hdraw).
    discriminate. }
  destruct (Hlater [] 6000 (instant 6000)) as (_ & e & w3 & Heq & Hlive & _).
  exists e, w3. split; [exact Heq|].
  apply Hlive. vm_compute. reflexivity.
Defined.

(** C1 as stated fails once the replayed credential has expired: the
    refresh of Alice's credential at 5000 ms succeeds, and its replay
    at the expiry instant 604801000 ms throws the expired-token error of
    the verification step, which is neither "Refresh token not found" nor
    "Token has been revoked". *)
Lemma rotation_replay_after_expiry :
  refreshAccessToken refConfig refEnv 5000 (instant 5000) aliceRefresh
    (jwtSecret refConfig) aliceWorld
  = (Return alicePair2, aliceWorld2) /\
  (refreshAccessToken refConfig refEnv 604801000 (instant 604801000) aliceRefresh
     (jwtSecret refConfig) aliceWorld2).1 = Throw (JwtError Jwt.TokenExpiredError) /\
  Throw (A := TokenPair.t) (JwtError Jwt.TokenExpiredError) <> Throw RefreshTokenNotFound /\
  Throw (A := TokenPair.t) (JwtError Jwt.TokenExpiredError) <> Throw TokenHasBeenRevoked.
Proof.
  split; [exact alice_first_refresh|].
  split; [vm_compute; reflexivity|].
  split; discriminate.
Qed.



(** ** Issuance *)

(** C5 (amended).  The static issuer succeeds for every identity whose
    oracle balance is positive, and every pair that the static issuer, the
    dynamic issuer or a refresh returns has one [jti] on both credentials;
    each expiry is the second at which its own credential was signed plus
    its configured lifetime, so the access expiry is strictly before the
    refresh expiry whenever the configured access lifetime is shorter, in
    whole seconds, than the configured refresh lifetime, as with the
    default 15 minutes and 7 days, and the clock did not step back between
    the two signatures. *)
Theorem issued_pair_invariant cfg env :
  (forall now clock address ip w b,
     balanceOf env now (evmAuthAddress cfg) address (requiredTokenId cfg) = Balance b ->
     b <> 0%N ->
     exists t w',
       issueJwt cfg env now clock address ip w = (Return t, w') /\
       pairInvariant cfg clock t) /\
  (forall now clock req ip w t w',
     issueDynamicJwt cfg env now clock req ip w = (Return t, w') ->
     pairInvariant cfg clock t) /\
  (forall now clock r w t w',
     refreshJwt cfg env now clock r w = (Return t, w') ->
     pairInvariant cfg clock t).
Proof.
  split_and!.
  - intros now clock address ip w b Hbal Hb.
    destruct (issueJwt_holder cfg env now clock address ip w b Hbal Hb)
      as (pair & w' & Heq & Hm).
    exists (issuedOf pair), w'. split; [exact Heq|].
    exact (minted_sibling _ _ _ _ _ _ _ _ _ _ Hm).
  - intros now clock req ip w t w' Heq.
    apply issueDynamicJwt_inv in Heq
      as (tokenId & pair & w0 & _ & _ & _ & _ & -> & Hm & _).
    exact (minted_sibling _ _ _ _ _ _ _ _ _ _ Hm).
  - intros now clock r w t w'. unfold refreshJwt, bind.
    destruct (refreshAccessToken cfg env now clock r (jwtSecret cfg) w)
      as [[pair|e] w1] eqn:Hr; [|discriminate].
    intros [= <- <-].
    apply refreshAccessToken_return_inv in Hr as (p & data & _ & _ & _ & _ & _ & Hm).
    exact (minted_sibling _ _ _ _ _ _ _ _ _ _ Hm).
Qed.

Lemma issued_pair_invariant_witness :
  exists t w',
    issueJwt refConfig refEnv 900 straddling alice "198.51.100.7" initialWorld
    = (Return t, w') /\
    siblingPair t /\
    IssuedTokens.expiresIn t = 900 /\
    IssuedTokens.refreshExpiresIn t = 604801 /\
    IssuedTokens.expiresIn t < IssuedTokens.refreshExpiresIn t.
Proof.
  destruct (issued_pair_invariant refConfig refEnv) as (Hstatic & _ & _).
  destruct (Hstatic 900 straddling alice "198.51.100.7" initialWorld 1%N)
    as (t & w' & Heq & Hs & Ha & Hr & Hlt).
  - vm_compute. reflexivity.
  - discriminate.
  - exists t, w'. split; [exact Heq|]. split; [exact Hs|].
    split; [exact Ha|]. split; [exact Hr|].
    apply Hlt; vm_compute; [discriminate | reflexivity].
Defined.


(** C5 as stated fails under such settings: Alice holds the token, the
    static issuer succeeds, and the access credential expires after the
    refresh credential. *)
Lemma issued_pair_swapped_expiries :
  balanceOf refEnv 1000 (evmAuthAddress swappedConfig) alice
    (requiredTokenId swappedConfig) = Balance 1 /\
  exists t,
        (issueJwt swappedConfig refEnv 1000 (instant 1000) alice "198.51.100.7"
       initialWorld).1 = Return t /\
    IssuedTokens.expiresIn t = 604801 /\ IssuedTokens.refreshExpiresIn t = 901 /\
    ~ IssuedTokens.expiresIn t < IssuedTokens.refreshExpiresIn t.
Proof.
  split; [vm_compute; reflexivity|].
  eexists. split; [vm_compute; reflexivity|].
  simpl. split_and!; [reflexivity | reflexivity | lia].
Qed.

(** C6.  For an identity whose oracle balance is zero the static issuer
    throws the does-not-hold error, an outcome of its own that is not the
    oracle-failure one, and leaves the refresh-token store (hence its
    size), the revocation set and the random source as they were. *)
Theorem issueJwt_not_holder cfg env now clock address ip w :
  balanceOf env now (evmAuthAddress cfg) address (requiredTokenId cfg) = Balance 0 ->
  exists w',
    issueJwt cfg env now clock address ip w
    = (Throw (DoesNotHoldToken address (requiredTokenId cfg) None), w') /\
    (forall message,
       DoesNotHoldToken address (requiredTokenId cfg) None <> OracleFailure message) /\
    refreshTokenStore w' = refreshTokenStore w /\
    size (refreshTokenStore w') = size (refreshTokenStore w) /\
    tokenBlacklist w' = tokenBlacklist w /\
    randomDraws w' = randomDraws w.
Proof.
  intros Hbal. unfold issueJwt, bind, queryBalance. rewrite Hbal. simpl.
  eexists. split; [reflexivity|]. simpl. split_and!; done.
Qed.

Lemma issueJwt_not_holder_witness :
  exists w',
    issueJwt refConfig refEnv 1000 (instant 1000) bob "198.51.100.7" aliceWorld
    = (Throw (DoesNotHoldToken bob (requiredTokenId refConfig) None), w') /\
    (forall message,
       DoesNotHoldToken bob (requiredTokenId refConfig) None <> OracleFailure message) /\
    refreshTokenStore w' = refreshTokenStore aliceWorld /\
    size (refreshTokenStore w') = size (refreshTokenStore aliceWorld) /\
    tokenBlacklist w' = tokenBlacklist aliceWorld /\
    randomDraws w' = randomDraws aliceWorld.
Proof.
  apply (issueJwt_not_holder refConfig refEnv 1000 (instant 1000) bob "198.51.100.7" aliceWorld).
  vm_compute. reflexivity.
Defined.

(** ** Where the code departs from the specification *)

(** C2 fails on the code.  A pair issued dynamically for token 42 of
    another contract embeds the contract claim and its access credential
    passes the gate; the refresh of that pair succeeds and keeps subject
    and token id, but the new credentials carry no contract claim, and the
    gate then rejects the new access credential with "Invalid tokenId in
    JWT". *)
Theorem refresh_loses_contract_claim :
  dynamicIssue.1 = Return dynamicFirst /\
  Claims.contract (claimsOf (IssuedTokens.accessToken dynamicFirst)) = Some otherContract /\
  evmAuthMiddleware refConfig 2000 (bearer (IssuedTokens.accessToken dynamicFirst)) dynamicIssue.2
  = Next (claimsOf (IssuedTokens.accessToken dynamicFirst)) /\
  exists t2,
    dynamicRefresh.1 = Return t2 /\
    Claims.sub (claimsOf (IssuedTokens.accessToken t2)) = alice /\
    Claims.tokenId (claimsOf (IssuedTokens.accessToken t2)) = 42 /\
    Claims.contract (claimsOf (IssuedTokens.accessToken t2)) = None /\
    Claims.contract (claimsOf (IssuedTokens.refreshToken t2)) = None /\
    evmAuthMiddleware refConfig 6000 (bearer (IssuedTokens.accessToken t2)) dynamicRefresh.2
    = Unauthorized InvalidTokenIdInJwt.
Proof.
  split; [vm_compute; reflexivity|].
  split; [vm_compute; reflexivity|].
  split; [vm_compute; reflexivity|].
  eexists. split; [vm_compute; reflexivity|].
  split_and!; vm_compute; reflexivity.
Qed.

(** The static issuer consults the oracle for whatever string it is
    given, and never answers with an invalid-address error of its own. *)
Lemma issueJwt_always_queries cfg env now clock address ip w :
  oracleQueries (issueJwt cfg env now clock address ip w).2 =
    (oracleQueries w ++
     [{| q_contract := evmAuthAddress cfg; q_wallet := address;
         q_tokenId := requiredTokenId cfg |}])%list /\
  (issueJwt cfg env now clock address ip w).1 <> Throw InvalidWalletAddress.
Proof.
  unfold issueJwt, bind, queryBalance.
  destruct (balanceOf env now (evmAuthAddress cfg) address (requiredTokenId cfg))
    as [b|message]; [|by split].
  destruct (N.eqb b 0); [by split|]. cbn beta iota.
  destruct (issueTokenPair _ _ _ _ _ _ _ _) as [out w1] eqn:Heq.
  apply issueTokenPair_inv in Heq as (pair & -> & Hm). simpl.
  split; [|discriminate].
  by rewrite (minted_queries _ _ _ _ _ _ _ _ _ _ Hm).
Qed.

(** C8 fails on the code.  For the malformed identity "not-an-address" the
    static issuer queries the oracle and reports whatever the oracle
    throws; the dynamic issuer rejects the same wallet with "Invalid wallet
    address" before any query. *)
Theorem issueJwt_queries_oracle_for_malformed_identity :
  isAddress refEnv "not-an-address" = false /\
  issueJwt refConfig refEnv 1000 (instant 1000) "not-an-address" "198.51.100.7"
    initialWorld
  = (Throw (OracleFailure "invalid address"),
     {| refreshTokenStore := ∅; tokenBlacklist := ∅; randomDraws := 0%nat;
        oracleQueries :=
          [{| q_contract := evmAuthAddress refConfig; q_wallet := "not-an-address";
              q_tokenId := requiredTokenId refConfig |}] |}) /\
  issueDynamicJwt refConfig refEnv 1000 (instant 1000)
    {| DynamicAuthRequest.wallet := "not-an-address"; DynamicAuthRequest.contract := otherContract;
       DynamicAuthRequest.tokenId := JsInt 0 |} "198.51.100.7" initialWorld
  = (Throw InvalidWalletAddress, initialWorld).
Proof. split_and!; reflexivity. Qed.

(** The refresh route never passes through the authentication limiter:
    its counters are untouched and it never answers with that limiter's
    429. *)
Lemma refresh_route_skips_authLimiter cfg env now clock req refreshToken srv :
  target req = PostAuthRefresh refreshToken ->
  authHits (handle cfg env now clock req srv).2 = authHits srv /\
  forall retryAfter,
    (handle cfg env now clock req srv).1 <> TooManyRequests429 AuthLimiter retryAfter.
Proof.
  intros Ht. unfold handle, withGeneralLimiter. rewrite Ht.
  destruct (RateLimit.apply generalLimiter now req (generalHits srv))
    as [[retryAfter|] hits]; simpl; [by split|].
  unfold refreshHandler.
  assert (Hrespond : forall m srv0,
    authHits (respond m srv0).2 = authHits srv0 /\
    forall r, (respond m srv0).1 <> TooManyRequests429 AuthLimiter r).
  { intros m srv0. unfold respond. destruct (m (world srv0)) as [[t|e] w]; by split. }
  assert (Hgoal : forall m,
    authHits (respond m {| generalHits := hits; authHits := authHits srv;
                           mcpHits := mcpHits srv; world := world srv |}).2
    = authHits srv /\
    forall r, (respond m {| generalHits := hits; authHits := authHits srv;
                            mcpHits := mcpHits srv; world := world srv |}).1
              <> TooManyRequests429 AuthLimiter r).
  { intros m. exact (Hrespond m _). }
  destruct refreshToken as [[p k|raw]|]; [apply Hgoal| |by split].
  destruct raw; [by split | apply Hgoal].
Qed.

(** C9 fails on the code.  Six requests within one window from the same
    origin: on the refresh route all six reach the refresh handler (the
    sixth is answered by it, here with "Refresh token not found"), while
    on the issuance route the sixth is answered 429 by the authentication
    limiter. *)
Theorem refresh_route_not_rate_limited :
  (serve refConfig refEnv (everySecond (PostAuthRefresh (Some aliceRefresh)) 6)
     initialServer).1
  = replicate 6 (Thrown401 RefreshTokenNotFound) /\
  (serve refConfig refEnv (everySecond (PostAuth (Some bob)) 6) initialServer).1
  = (replicate 5 (Thrown401 (DoesNotHoldToken bob 0 None))
     ++ [TooManyRequests429 AuthLimiter 901000])%list.
Proof. split; vm_compute; reflexivity. Qed.

(** * Further properties of the code *)

(** ** [revokeToken] *)

(** Revoking an identifier a second time changes nothing: the world
    after two revocations of [jti] is the world after one. *)
Theorem revokeToken_idempotent jti w :
  (revokeToken jti (revokeToken jti w).2).2 = (revokeToken jti w).2.
Proof.
  unfold revokeToken, bind, modify, set_store, set_blacklist. simpl. f_equal.
  - apply map_eq. intros token. apply option_eq. intros data.
    rewrite !map_lookup_filter_Some. tauto.
  - apply set_eq. intros x. rewrite !elem_of_union. tauto.
Qed.

Lemma revokeToken_revokes jti w :
  isTokenRevoked jti (revokeToken jti w).2 = true.
Proof.
  unfold revokeToken, bind, modify, isTokenRevoked. simpl.
  apply bool_decide_eq_true. set_solver.
Qed.

Lemma revokeToken_lookup jti w token data :
  refreshTokenStore (revokeToken jti w).2 !! token = Some data <->
  refreshTokenStore w !! token = Some data /\ RefreshTokenData.jti data <> jti.
Proof.
  unfold revokeToken, bind, modify. simpl. by rewrite map_lookup_filter_Some.
Qed.

(** After [revokeToken jti]: the identifier is reported revoked, the
    store holds exactly the former records whose identifier is another
    one, and every identifier revoked before is still revoked. *)
Theorem revokeToken_effect jti w :
  isTokenRevoked jti (revokeToken jti w).2 = true /\
  (forall token data,
     refreshTokenStore (revokeToken jti w).2 !! token = Some data <->
     refreshTokenStore w !! token = Some data /\ RefreshTokenData.jti data <> jti) /\
  (forall other, isTokenRevoked other w = true ->
     isTokenRevoked other (revokeToken jti w).2 = true).
Proof.
  split_and!.
  - apply revokeToken_revokes.
  - apply revokeToken_lookup.
  - intros other. unfold revokeToken, bind, modify, isTokenRevoked. simpl.
    rewrite !bool_decide_eq_true. set_solver.
Qed.

(** Once an identifier is revoked, the gate rejects every verified access
    credential that carries it (a non-empty identifier) with "Token has
    been revoked", also after any later calls of the core. *)
Theorem revoked_credential_stays_rejected cfg env jti w later now parts p :
  Jwt.verify now (parts !! 1%nat) (jwtSecret cfg) = inr p ->
  Claims.type p = "access" ->
  Claims.jti p = jti ->
  jti <> "" ->
  evmAuthMiddleware cfg now (Some parts)
    (execAll cfg env later (revokeToken jti w).2)
  = Unauthorized GateTokenRevoked.
Proof.
  intros Hv Hty Hj Hne.
  destruct (execAll_evolves cfg env later (revokeToken jti w).2) as (Hsub & _).
  unfold evmAuthMiddleware. rewrite Hv, Hty, Hj. simpl.
  rewrite (proj2 (truthy_true jti) Hne). unfold isTokenRevoked.
  rewrite bool_decide_eq_true_2; [done|].
  apply Hsub. simpl. set_solver.
Qed.

Lemma revoked_credential_stays_rejected_witness :
  evmAuthMiddleware refConfig 4000 (bearer aliceAccess)
    (execAll refConfig refEnv [CallIssueJwt 3000 (instant 3000) alice "198.51.100.7"]
       (revokeToken "a" aliceWorld).2)
  = Unauthorized GateTokenRevoked.
Proof.
  apply (revoked_credential_stays_rejected refConfig refEnv "a" aliceWorld
           [CallIssueJwt 3000 (instant 3000) alice "198.51.100.7"] 4000
           [Unparsable "Bearer"; aliceAccess] (claimsOf aliceAccess)).
  - vm_compute. reflexivity.
  - reflexivity.
  - reflexivity.
  - discriminate.
Defined.

(** ** [refreshAccessToken] *)

(** In a reachable world, revoking the identifier of a refresh credential
    removes its Session Record, so a refresh of that credential right
    after the revocation throws "Refresh token not found" (not "Token has
    been revoked") and changes nothing. *)
Theorem refresh_after_revocation_not_found cfg env calls now clock r p :
  Jwt.verify now (Some r) (jwtSecret cfg) = inr p ->
  Claims.type p = "refresh" ->
  refreshAccessToken cfg env now clock r (jwtSecret cfg)
    (revokeToken (Claims.jti p) (execAll cfg env calls initialWorld)).2
  = (Throw RefreshTokenNotFound,
     (revokeToken (Claims.jti p) (execAll cfg env calls initialWorld)).2).
Proof.
  intros Hv Hty.
  pose proof (reachable_consistent cfg env calls) as Hc.
  unfold refreshAccessToken. rewrite Hv, Hty. simpl. unfold bind at 1, gets.
  destruct (refreshTokenStore _ !! r) as [data|] eqn:Hl; [|done].
  apply revokeToken_lookup in Hl as [Hl Hne].
  destruct (Hc _ _ Hl) as (p' & k & draw & -> & Hjti & _).
  apply verify_inr in Hv as [[= -> _] _]. congruence.
Qed.

Lemma refresh_after_revocation_not_found_witness :
  refreshAccessToken refConfig refEnv 5000 (instant 5000) aliceRefresh (jwtSecret refConfig)
    (revokeToken "a" aliceWorld).2
  = (Throw RefreshTokenNotFound, (revokeToken "a" aliceWorld).2).
Proof.
  apply (refresh_after_revocation_not_found refConfig refEnv
           [CallIssueJwt 1000 (instant 1000) alice "198.51.100.7"] 5000 (instant 5000)
           aliceRefresh (claimsOf aliceRefresh)).
  - vm_compute. reflexivity.
  - reflexivity.
Defined.

(** A refresh that throws anything but "Token has been revoked" leaves
    the world exactly as it was: no record is deleted, nothing is
    blacklisted and no random draw is consumed. *)
Theorem failed_refresh_keeps_world cfg env now clock r secret w e w' :
  refreshAccessToken cfg env now clock r secret w = (Throw e, w') ->
  e <> TokenHasBeenRevoked ->
  w' = w.
Proof.
  unfold refreshAccessToken.
  destruct (Jwt.verify now (Some r) secret) as [e0|p]; [by intros [= _ <-]|].
  destruct (negb _); [by intros [= _ <-]|].
  unfold bind at 1, gets.
  destruct (refreshTokenStore w !! r) as [data|]; [|by intros [= _ <-]].
  unfold bind at 1, gets. destruct (isTokenRevoked _ w).
  - unfold bind, modify, throw. intros [= <- _]. done.
  - unfold bind, revokeToken, modify, bind. cbn beta iota.
    intros Heq. apply issueTokenPair_inv in Heq as (pair & [=] & _).
Qed.

Lemma failed_refresh_keeps_world_witness :
  (refreshAccessToken refConfig refEnv 5000 (instant 5000) aliceAccess (jwtSecret refConfig)
     aliceWorld).2 = aliceWorld.
Proof.
  apply (failed_refresh_keeps_world refConfig refEnv 5000 (instant 5000) aliceAccess
           (jwtSecret refConfig) aliceWorld InvalidTokenType).
  - apply outcome_with_world. vm_compute. reflexivity.
  - discriminate.
Defined.

(** What a refresh rejects before it looks at the store: a credential
    signed with another secret or not a JWT at all throws the
    verification error, and a verified credential of another kind than
    [refresh] (an access credential in particular) throws "Invalid token
    type"; the world is unchanged in each case. *)
Theorem refresh_rejects_foreign_and_wrong_kind cfg env now clock secret w :
  (forall p k, k <> secret ->
     refreshAccessToken cfg env now clock (Signed p k) secret w
     = (Throw (JwtError Jwt.JsonWebTokenError), w)) /\
  (forall raw,
     refreshAccessToken cfg env now clock (Unparsable raw) secret w
     = (Throw (JwtError Jwt.JsonWebTokenError), w)) /\
  (forall r p,
     Jwt.verify now (Some r) secret = inr p ->
     Claims.type p <> "refresh" ->
     refreshAccessToken cfg env now clock r secret w = (Throw InvalidTokenType, w)).
Proof.
  split_and!.
  - intros p k Hk. unfold refreshAccessToken, Jwt.verify.
    by rewrite decide_False.
  - done.
  - intros r p Hv Hty. unfold refreshAccessToken. rewrite Hv.
    by rewrite string_eqb_false.
Qed.

Lemma refresh_rejects_foreign_and_wrong_kind_witness :
  refreshAccessToken refConfig refEnv 5000 (instant 5000) aliceAccess
    (jwtSecret refConfig) aliceWorld
  = (Throw InvalidTokenType, aliceWorld).
Proof.
  destruct (refresh_rejects_foreign_and_wrong_kind refConfig refEnv 5000
              (instant 5000) (jwtSecret refConfig) aliceWorld) as (_ & _ & Hkind).
  apply (Hkind aliceAccess (claimsOf aliceAccess)).
  - vm_compute. reflexivity.
  - vm_compute. discriminate.
Defined.

(** ** Issuance, end to end *)

Lemma issueJwt_return_inv cfg env now clock address ip w t w' :
  issueJwt cfg env now clock address ip w = (Return t, w') ->
  exists b pair w0,
    balanceOf env now (evmAuthAddress cfg) address (requiredTokenId cfg) = Balance b /\
    b <> 0%N /\
    t = issuedOf pair /\
    Minted cfg env clock address (requiredTokenId cfg) (jwtSecret cfg) None w0 pair w' /\
    refreshTokenStore w0 = refreshTokenStore w /\
    tokenBlacklist w0 = tokenBlacklist w /\
    randomDraws w0 = randomDraws w.
Proof.
  unfold issueJwt, bind, queryBalance.
  destruct (balanceOf env now (evmAuthAddress cfg) address (requiredTokenId cfg))
    as [b|message]; [|discriminate].
  destruct (N.eqb_spec b 0) as [|Hb]; [discriminate|]. cbn beta iota.
  destruct (issueTokenPair _ _ _ _ _ _ _ _) as [out w1] eqn:Heq.
  apply issueTokenPair_inv in Heq as (pair & -> & Hm).
  intros [= <- <-]. eexists b, pair, _. split_and!; done.
Qed.

Lemma minted_records cfg env clock address tokenId secret extra w pair w' :
  Minted cfg env clock address tokenId secret extra w pair w' ->
  refreshTokenStore w' !! TokenPair.refreshToken pair =
    Some {| RefreshTokenData.address := address;
            RefreshTokenData.tokenId := tokenId;
            RefreshTokenData.jti := randomBytes env (randomDraws w);
            RefreshTokenData.createdAt := Jwt.clockTimestamp (atRecord clock) |} /\
  (forall token, token <> TokenPair.refreshToken pair ->
     refreshTokenStore w' !! token = refreshTokenStore w !! token).
Proof.
  intros Hm. rewrite (minted_store _ _ _ _ _ _ _ _ _ _ Hm).
  rewrite (minted_jti _ _ _ _ _ _ _ _ _ _ Hm). split.
  - apply lookup_insert_eq.
  - intros token Hne. by apply lookup_insert_ne.
Qed.

(** Every successful issuance, static or dynamic, records exactly one
    Session Record: the returned refresh credential is looked up to the
    identity, the token id, the identifier just drawn and the second of
    the minting's first clock reading; every other key of the store reads
    as before and the revocation set is unchanged. *)
Theorem issuance_records_session cfg env now clock ip w t w' :
  (forall address,
     issueJwt cfg env now clock address ip w = (Return t, w') ->
     refreshTokenStore w' !! IssuedTokens.refreshToken t =
       Some {| RefreshTokenData.address := address;
               RefreshTokenData.tokenId := requiredTokenId cfg;
               RefreshTokenData.jti := randomBytes env (randomDraws w);
               RefreshTokenData.createdAt := Jwt.clockTimestamp (atRecord clock) |} /\
     (forall token, token <> IssuedTokens.refreshToken t ->
        refreshTokenStore w' !! token = refreshTokenStore w !! token) /\
     tokenBlacklist w' = tokenBlacklist w) /\
  (forall req tokenId,
     issueDynamicJwt cfg env now clock req ip w = (Return t, w') ->
     DynamicAuthRequest.tokenId req = JsInt tokenId ->
     refreshTokenStore w' !! IssuedTokens.refreshToken t =
       Some {| RefreshTokenData.address := DynamicAuthRequest.wallet req;
               RefreshTokenData.tokenId := tokenId;
               RefreshTokenData.jti := randomBytes env (randomDraws w);
               RefreshTokenData.createdAt := Jwt.clockTimestamp (atRecord clock) |} /\
     (forall token, token <> IssuedTokens.refreshToken t ->
        refreshTokenStore w' !! token = refreshTokenStore w !! token) /\
     tokenBlacklist w' = tokenBlacklist w).
Proof.
  split.
  - intros address Heq.
    apply issueJwt_return_inv in Heq
      as (b & pair & w0 & _ & _ & -> & Hm & Hs & Hb & Hd).
    destruct (minted_records _ _ _ _ _ _ _ _ _ _ Hm) as [Hnew Hold].
    rewrite Hd, Hs in *. split_and!; [exact Hnew | exact Hold |].
    by rewrite (minted_blacklist _ _ _ _ _ _ _ _ _ _ Hm).
  - intros req tokenId Heq Hid.
    apply issueDynamicJwt_inv in Heq
      as (tokenId' & pair & w0 & _ & _ & Hid' & _ & -> & Hm & Hs & Hb & Hd).
    rewrite Hid in Hid'. injection Hid' as <-.
    destruct (minted_records _ _ _ _ _ _ _ _ _ _ Hm) as [Hnew Hold].
    rewrite Hd, Hs in *. split_and!; [exact Hnew | exact Hold |].
    by rewrite (minted_blacklist _ _ _ _ _ _ _ _ _ _ Hm).
Qed.

Lemma issuance_records_session_witness :
  refreshTokenStore aliceWorld !! aliceRefresh =
    Some {| RefreshTokenData.address := alice;
            RefreshTokenData.tokenId := 0;
            RefreshTokenData.jti := "a";
            RefreshTokenData.createdAt := 1 |}.
Proof.
  destruct (issuance_records_session refConfig refEnv 1000 (instant 1000) "198.51.100.7"
              initialWorld
              (issuedOf (TokenPair.mk aliceAccess aliceRefresh 901 604801 "a"))
              aliceWorld) as [Hstatic _].
  apply (Hstatic alice).
  change aliceWorld with
    (issueJwt refConfig refEnv 1000 (instant 1000) alice "198.51.100.7" initialWorld).2.
  apply outcome_with_world. vm_compute. reflexivity.
Defined.

Lemma minted_access_admitted cfg env clock address tokenId extra w pair w' now' :
  Minted cfg env clock address tokenId (jwtSecret cfg) extra w pair w' ->
  randomBytes env (randomDraws w) ∉ tokenBlacklist w ->
  truthy_opt (AdditionalClaims.contract <$> extra) = true \/
    tokenId = requiredTokenId cfg ->
  now' < 1000 * TokenPair.accessTokenExp pair ->
  exists p,
    TokenPair.accessToken pair = Signed p (jwtSecret cfg) /\
    Claims.sub p = address /\ Claims.tokenId p = tokenId /\
    evmAuthMiddleware cfg now' (bearer (TokenPair.accessToken pair)) w' = Next p.
Proof.
  intros Hm Hfresh Hreq Hnow.
  eexists. split; [exact (minted_access _ _ _ _ _ _ _ _ _ _ Hm)|].
  split; [reflexivity|]. split; [reflexivity|].
  unfold bearer.
  match goal with
  | |- _ = Next ?p => rewrite (gate_after_revocation_check cfg now' _ w' p)
  end.
  - simpl. destruct Hreq as [-> | ->]; [done|].
    destruct (truthy_opt _); [done|]. by rewrite Z.eqb_refl.
  - change ([Unparsable "Bearer"; TokenPair.accessToken pair] !! 1%nat)
      with (Some (TokenPair.accessToken pair)).
    rewrite (minted_access _ _ _ _ _ _ _ _ _ _ Hm).
    apply verify_inr. split; [reflexivity|]. cbn [Claims.exp].
    rewrite <- (minted_accessExp _ _ _ _ _ _ _ _ _ _ Hm).
    by apply clockTimestamp_lt.
  - reflexivity.
  - simpl. rewrite (minted_blacklist _ _ _ _ _ _ _ _ _ _ Hm).
    by rewrite (minted_jti _ _ _ _ _ _ _ _ _ _ Hm).
Qed.

(** The access credential of a static issuance passes the gate in the
    world the issuance leaves, at every instant before the reported expiry
    [expiresIn], provided the identifier drawn for it was not already in
    the revocation set. *)
Theorem issued_access_admitted cfg env now clock address ip w t w' now' :
  issueJwt cfg env now clock address ip w = (Return t, w') ->
  randomBytes env (randomDraws w) ∉ tokenBlacklist w ->
  now' < 1000 * IssuedTokens.expiresIn t ->
  exists p,
    Jwt.decode (IssuedTokens.accessToken t) = Some p /\
    Claims.sub p = address /\
    evmAuthMiddleware cfg now' (bearer (IssuedTokens.accessToken t)) w' = Next p.
Proof.
  intros Heq Hfresh Hnow.
  apply issueJwt_return_inv in Heq
    as (b & pair & w0 & _ & _ & -> & Hm & _ & Hb & Hd).
  destruct (minted_access_admitted cfg env clock address (requiredTokenId cfg)
              None w0 pair w' now' Hm) as (p & Hp & Hsub & _ & Hgate).
  - by rewrite Hd, Hb.
  - by right.
  - exact Hnow.
  - exists p.
    change (IssuedTokens.accessToken (issuedOf pair))
      with (TokenPair.accessToken pair).
    split; [by rewrite Hp|]. split; [exact Hsub | exact Hgate].
Qed.

Lemma issued_access_admitted_witness :
  exists p,
    Jwt.decode aliceAccess = Some p /\
    Claims.sub p = alice /\
    evmAuthMiddleware refConfig 900999 (bearer aliceAccess) aliceWorld = Next p.
Proof.
  apply (issued_access_admitted refConfig refEnv 1000 (instant 1000) alice "198.51.100.7"
           initialWorld
           (issuedOf (TokenPair.mk aliceAccess aliceRefresh 901 604801 "a"))
           aliceWorld 900999).
  - change aliceWorld with
      (issueJwt refConfig refEnv 1000 (instant 1000) alice "198.51.100.7" initialWorld).2.
    apply outcome_with_world. vm_compute. reflexivity.
  - apply not_elem_of_empty.
  - vm_compute. reflexivity.
Defined.

(** The access credential of a dynamic issuance passes the gate whatever
    its token id and the configured required token id are, at every
    instant before its reported expiry, provided the contract address of
    the request is not the empty string and the identifier drawn was not
    already revoked. *)
Theorem dynamic_access_admitted cfg env now clock req ip w t w' now' :
  issueDynamicJwt cfg env now clock req ip w = (Return t, w') ->
  DynamicAuthRequest.contract req <> "" ->
  randomBytes env (randomDraws w) ∉ tokenBlacklist w ->
  now' < 1000 * IssuedTokens.expiresIn t ->
  exists p,
    Jwt.decode (IssuedTokens.accessToken t) = Some p /\
    Claims.sub p = DynamicAuthRequest.wallet req /\
    Claims.contract p = Some (DynamicAuthRequest.contract req) /\
    evmAuthMiddleware cfg now' (bearer (IssuedTokens.accessToken t)) w' = Next p.
Proof.
  intros Heq Hc Hfresh Hnow.
  apply issueDynamicJwt_inv in Heq
    as (tokenId & pair & w0 & _ & _ & _ & _ & -> & Hm & _ & Hb & Hd).
  destruct (minted_access_admitted cfg env clock _ tokenId _ w0 pair w' now' Hm)
    as (p & Hp & Hsub & _ & Hgate).
  - by rewrite Hd, Hb.
  - left. simpl. by apply truthy_true.
  - exact Hnow.
  - exists p.
    change (IssuedTokens.accessToken (issuedOf pair))
      with (TokenPair.accessToken pair).
    split; [by rewrite Hp|]. split; [exact Hsub|]. split; [|exact Hgate].
    rewrite (minted_access _ _ _ _ _ _ _ _ _ _ Hm) in Hp.
    by injection Hp as <-.
Qed.

Lemma dynamic_access_admitted_witness :
  exists p,
    Jwt.decode (IssuedTokens.accessToken dynamicFirst) = Some p /\
    Claims.sub p = alice /\
    Claims.contract p = Some otherContract /\
    evmAuthMiddleware refConfig 2000 (bearer (IssuedTokens.accessToken dynamicFirst))
      dynamicIssue.2 = Next p.
Proof.
  apply (dynamic_access_admitted refConfig refEnv 1000 (instant 1000) dynamicRequest
           "198.51.100.7" initialWorld dynamicFirst dynamicIssue.2 2000).
  - apply outcome_with_world. vm_compute. reflexivity.
  - discriminate.
  - apply not_elem_of_empty.
  - vm_compute. reflexivity.
Defined.

Lemma refreshAccessToken_succeeds cfg env now clock r secret w p data :
  Jwt.verify now (Some r) secret = inr p ->
  Claims.type p = "refresh" ->
  refreshTokenStore w !! r = Some data ->
  RefreshTokenData.jti data ∉ tokenBlacklist w ->
  exists pair w',
    refreshAccessToken cfg env now clock r secret w = (Return pair, w') /\
    Minted cfg env clock (RefreshTokenData.address data) (RefreshTokenData.tokenId data)
      secret None (rotated r (RefreshTokenData.jti data) w) pair w'.
Proof.
  intros Hv Hty Hl Hrev. unfold refreshAccessToken. rewrite Hv, Hty. simpl.
  unfold bind at 1, gets. rewrite Hl.
  unfold bind at 1, gets, isTokenRevoked.
  rewrite bool_decide_eq_false_2 by done.
  unfold bind, revokeToken, modify, bind. cbn beta iota.
  destruct (issueTokenPair _ _ _ _ _ _ _ _) as [out w1] eqn:Heq.
  apply issueTokenPair_inv in Heq as (pair & -> & Hm).
  by exists pair, w1.
Qed.

(** Issue, then refresh: the refresh credential of a static issuance,
    presented before its reported expiry [refreshExpiresIn] in the world
    the issuance leaves, is rotated into a new sibling pair for the same
    identity and token id, and the identifier of the first pair is then in
    the revocation set (provided it was not revoked before it was drawn). *)
Theorem issued_refresh_rotates cfg env now clock address ip w t w1 now' clock' :
  issueJwt cfg env now clock address ip w = (Return t, w1) ->
  randomBytes env (randomDraws w) ∉ tokenBlacklist w ->
  now' < 1000 * IssuedTokens.refreshExpiresIn t ->
  exists t2 w2 a2,
    refreshJwt cfg env now' clock' (IssuedTokens.refreshToken t) w1 = (Return t2, w2) /\
    siblingPair t2 /\
    Jwt.decode (IssuedTokens.accessToken t2) = Some a2 /\
    Claims.sub a2 = address /\
    Claims.tokenId a2 = requiredTokenId cfg /\
    randomBytes env (randomDraws w) ∈ tokenBlacklist w2.
Proof.
  intros Heq Hfresh Hnow.
  apply issueJwt_return_inv in Heq
    as (b & pair & w0 & _ & _ & -> & Hm & _ & Hb & Hd).
  destruct (minted_records _ _ _ _ _ _ _ _ _ _ Hm) as [Hnew _].
  rewrite Hd in Hnew. simpl in Hnow |- *.
  destruct (refreshAccessToken_succeeds cfg env now' clock' (TokenPair.refreshToken pair)
              (jwtSecret cfg) w1 _ _
              ltac:(rewrite (minted_refresh _ _ _ _ _ _ _ _ _ _ Hm);
                    apply verify_inr; split; [reflexivity|]; simpl;
                    rewrite <- (minted_refreshExp _ _ _ _ _ _ _ _ _ _ Hm);
                    by apply clockTimestamp_lt)
              eq_refl Hnew) as (pair2 & w2 & Hr & Hm2).
  - simpl. by rewrite (minted_blacklist _ _ _ _ _ _ _ _ _ _ Hm), Hb.
  - exists (issuedOf pair2), w2. eexists.
    unfold refreshJwt, bind. rewrite Hr. split; [reflexivity|].
    split; [exact (proj1 (minted_sibling _ _ _ _ _ _ _ _ _ _ Hm2))|].
    simpl. rewrite (minted_access _ _ _ _ _ _ _ _ _ _ Hm2). simpl.
    split; [reflexivity|]. split; [reflexivity|]. split; [reflexivity|].
    rewrite (minted_blacklist _ _ _ _ _ _ _ _ _ _ Hm2). simpl.
    apply elem_of_union_l, elem_of_singleton. reflexivity.
Qed.

Lemma issued_refresh_rotates_witness :
  exists t2 w2 a2,
    refreshJwt refConfig refEnv 5000 (instant 5000) aliceRefresh aliceWorld = (Return t2, w2) /\
    siblingPair t2 /\
    Jwt.decode (IssuedTokens.accessToken t2) = Some a2 /\
    Claims.sub a2 = alice /\
    Claims.tokenId a2 = 0 /\
    "a" ∈ tokenBlacklist w2.
Proof.
  apply (issued_refresh_rotates refConfig refEnv 1000 (instant 1000) alice "198.51.100.7"
           initialWorld
           (issuedOf (TokenPair.mk aliceAccess aliceRefresh 901 604801 "a"))
           aliceWorld 5000).
  - change aliceWorld with
      (issueJwt refConfig refEnv 1000 (instant 1000) alice "198.51.100.7" initialWorld).2.
    apply outcome_with_world. vm_compute. reflexivity.
  - apply not_elem_of_empty.
  - vm_compute. reflexivity.
Defined.

(** ** Validation and failures of the issuers *)

(** The dynamic issuer validates before it does anything else: a wallet
    that is not an address, then a contract that is not an address, then a
    token id that is negative or not an integer is answered with its own
    error in a world left exactly as it was, so without any oracle query;
    and whenever the dynamic issuer has queried the oracle, it was for an
    address wallet, an address contract and a non-negative integer token
    id, asked once. *)
Theorem dynamic_issuer_validates_first cfg env now clock req ip w :
  (isAddress env (DynamicAuthRequest.wallet req) = false ->
     issueDynamicJwt cfg env now clock req ip w = (Throw InvalidWalletAddress, w)) /\
  (isAddress env (DynamicAuthRequest.wallet req) = true ->
   isAddress env (DynamicAuthRequest.contract req) = false ->
     issueDynamicJwt cfg env now clock req ip w = (Throw InvalidContractAddress, w)) /\
  (isAddress env (DynamicAuthRequest.wallet req) = true ->
   isAddress env (DynamicAuthRequest.contract req) = true ->
   (DynamicAuthRequest.tokenId req = JsNotInteger \/
    exists z, DynamicAuthRequest.tokenId req = JsInt z /\ z < 0) ->
     issueDynamicJwt cfg env now clock req ip w = (Throw InvalidTokenID, w)) /\
  (oracleQueries (issueDynamicJwt cfg env now clock req ip w).2 <> oracleQueries w ->
     isAddress env (DynamicAuthRequest.wallet req) = true /\
     isAddress env (DynamicAuthRequest.contract req) = true /\
     exists z,
       DynamicAuthRequest.tokenId req = JsInt z /\ 0 <= z /\
       oracleQueries (issueDynamicJwt cfg env now clock req ip w).2 =
         (oracleQueries w ++
          [{| q_contract := DynamicAuthRequest.contract req;
              q_wallet := DynamicAuthRequest.wallet req;
              q_tokenId := z |}])%list).
Proof.
  unfold issueDynamicJwt. split_and!.
  - by intros ->.
  - by intros -> ->.
  - intros -> -> [-> | (z & -> & Hz)]; simpl; [done|].
    by rewrite (proj2 (Z.ltb_lt z 0) Hz).
  - destruct (isAddress env (DynamicAuthRequest.wallet req)); simpl; [|done].
    destruct (isAddress env (DynamicAuthRequest.contract req)); simpl; [|done].
    destruct (DynamicAuthRequest.tokenId req) as [z|]; [|done].
    destruct (Z.ltb_spec z 0); [done|].
    intros _. split; [done|]. split; [done|]. exists z.
    split; [done|]. split; [done|].
    unfold bind, queryBalance.
    destruct (balanceOf env now _ _ z) as [b|message]; [|done].
    destruct (N.eqb b 0); [done|]. cbn beta iota.
    destruct (issueTokenPair _ _ _ _ _ _ _ _) as [out w1] eqn:Heq.
    apply issueTokenPair_inv in Heq as (pair & -> & Hm). simpl.
    by rewrite (minted_queries _ _ _ _ _ _ _ _ _ _ Hm).
Qed.

Lemma dynamic_issuer_validates_first_witness :
  issueDynamicJwt refConfig refEnv 1000 (instant 1000)
    {| DynamicAuthRequest.wallet := alice;
       DynamicAuthRequest.contract := otherContract;
       DynamicAuthRequest.tokenId := JsInt (-1) |} "198.51.100.7" aliceWorld
  = (Throw InvalidTokenID, aliceWorld).
Proof.
  destruct (dynamic_issuer_validates_first refConfig refEnv 1000 (instant 1000)
              {| DynamicAuthRequest.wallet := alice;
                 DynamicAuthRequest.contract := otherContract;
                 DynamicAuthRequest.tokenId := JsInt (-1) |}
              "198.51.100.7" aliceWorld) as (_ & _ & Hid & _).
  apply Hid.
  - vm_compute. reflexivity.
  - vm_compute. reflexivity.
  - right. exists (-1). split; [reflexivity | lia].
Defined.

(** A validated dynamic request whose oracle balance is zero throws the
    does-not-hold error naming wallet, token id and contract, and creates
    no Session Record: store, revocation set and random source are as
    before. *)
Theorem dynamic_not_holder cfg env now clock req ip w z :
  isAddress env (DynamicAuthRequest.wallet req) = true ->
  isAddress env (DynamicAuthRequest.contract req) = true ->
  DynamicAuthRequest.tokenId req = JsInt z ->
  0 <= z ->
  balanceOf env now (DynamicAuthRequest.contract req)
    (DynamicAuthRequest.wallet req) z = Balance 0 ->
  exists w',
    issueDynamicJwt cfg env now clock req ip w
    = (Throw (DoesNotHoldToken (DynamicAuthRequest.wallet req) z
                (Some (DynamicAuthRequest.contract req))), w') /\
    refreshTokenStore w' = refreshTokenStore w /\
    tokenBlacklist w' = tokenBlacklist w /\
    randomDraws w' = randomDraws w.
Proof.
  intros Hw Hc Hid Hz Hbal. unfold issueDynamicJwt.
  rewrite Hw, Hc, Hid. simpl.
  rewrite (proj2 (Z.ltb_ge z 0) Hz).
  unfold bind, queryBalance. rewrite Hbal. simpl.
  eexists. split; [reflexivity|]. done.
Qed.

Lemma dynamic_not_holder_witness :
  exists w',
    issueDynamicJwt refConfig refEnv 1000 (instant 1000)
      {| DynamicAuthRequest.wallet := bob;
         DynamicAuthRequest.contract := otherContract;
         DynamicAuthRequest.tokenId := JsInt 42 |} "198.51.100.7" aliceWorld
    = (Throw (DoesNotHoldToken bob 42 (Some otherContract)), w') /\
    refreshTokenStore w' = refreshTokenStore aliceWorld /\
    tokenBlacklist w' = tokenBlacklist aliceWorld /\
    randomDraws w' = randomDraws aliceWorld.
Proof.
  apply (dynamic_not_holder refConfig refEnv 1000 (instant 1000)
           {| DynamicAuthRequest.wallet := bob;
              DynamicAuthRequest.contract := otherContract;
              DynamicAuthRequest.tokenId := JsInt 42 |}
           "198.51.100.7" aliceWorld 42).
  - vm_compute. reflexivity.
  - vm_compute. reflexivity.
  - reflexivity.
  - lia.
  - vm_compute. reflexivity.
Defined.

(** When the oracle call rejects, both issuers rethrow that rejection,
    which is neither the does-not-hold outcome nor a success, and create
    no Session Record: store, revocation set and random source are as
    before. *)
Theorem oracle_failure_is_surfaced cfg env now clock ip w message :
  (forall address,
     balanceOf env now (evmAuthAddress cfg) address (requiredTokenId cfg)
       = OracleRejects message ->
     exists w',
       issueJwt cfg env now clock address ip w = (Throw (OracleFailure message), w') /\
       refreshTokenStore w' = refreshTokenStore w /\
       tokenBlacklist w' = tokenBlacklist w /\
       randomDraws w' = randomDraws w) /\
  (forall req z,
     isAddress env (DynamicAuthRequest.wallet req) = true ->
     isAddress env (DynamicAuthRequest.contract req) = true ->
     DynamicAuthRequest.tokenId req = JsInt z ->
     0 <= z ->
     balanceOf env now (DynamicAuthRequest.contract req)
       (DynamicAuthRequest.wallet req) z = OracleRejects message ->
     exists w',
       issueDynamicJwt cfg env now clock req ip w = (Throw (OracleFailure message), w') /\
       refreshTokenStore w' = refreshTokenStore w /\
       tokenBlacklist w' = tokenBlacklist w /\
       randomDraws w' = randomDraws w).
Proof.
  split.
  - intros address Hbal. unfold issueJwt, bind, queryBalance. rewrite Hbal.
    eexists. split; [reflexivity|]. done.
  - intros req z Hw Hc Hid Hz Hbal. unfold issueDynamicJwt.
    rewrite Hw, Hc, Hid. simpl. rewrite (proj2 (Z.ltb_ge z 0) Hz).
    unfold bind, queryBalance. rewrite Hbal.
    eexists. split; [reflexivity|]. done.
Qed.

Lemma oracle_failure_is_surfaced_witness :
  exists w',
    issueJwt refConfig refEnv 1000 (instant 1000) "not-an-address" "198.51.100.7" aliceWorld
    = (Throw (OracleFailure "invalid address"), w') /\
    refreshTokenStore w' = refreshTokenStore aliceWorld /\
    tokenBlacklist w' = tokenBlacklist aliceWorld /\
    randomDraws w' = randomDraws aliceWorld.
Proof.
  destruct (oracle_failure_is_surfaced refConfig refEnv 1000 (instant 1000) "198.51.100.7"
              aliceWorld "invalid address") as [Hstatic _].
  apply (Hstatic "not-an-address"). vm_compute. reflexivity.
Defined.

(** ** What no call of the core undoes *)

(** No sequence of calls of the core (issuance, refresh, revocation,
    cleanup) ever takes an identifier out of the revocation set or gives a
    random draw back. *)
Theorem revocation_is_permanent cfg env calls w :
  (forall jti, isTokenRevoked jti w = true ->
     isTokenRevoked jti (execAll cfg env calls w) = true) /\
  (randomDraws w <= randomDraws (execAll cfg env calls w))%nat.
Proof.
  destruct (execAll_evolves cfg env calls w) as (Hsub & Hdraws & _).
  split; [|exact Hdraws].
  intros jti. unfold isTokenRevoked. rewrite !bool_decide_eq_true. apply Hsub.
Qed.

Lemma revocation_is_permanent_witness :
  isTokenRevoked "a"
    (execAll refConfig refEnv
       [CallCleanupExpiredTokens 700000000;
        CallIssueJwt 700000000 (instant 700000000) alice "198.51.100.7"]
       aliceWorld2) = true.
Proof.
  destruct (revocation_is_permanent refConfig refEnv
              [CallCleanupExpiredTokens 700000000;
               CallIssueJwt 700000000 (instant 700000000) alice "198.51.100.7"] aliceWorld2)
    as [Hkeep _].
  apply Hkeep. vm_compute. reflexivity.
Defined.

(** ** The shape of the session store *)

Section StoreKeys.
Context (cfg : Config) (env : Env).

Lemma keeping_pure {A} (o : Outcome A) : Keeping cfg (fun w => (o, w)).
Proof. by intros w. Qed.

Lemma keeping_gets {A} (f : World -> A) : Keeping cfg (gets f).
Proof. by intros w. Qed.

Lemma keeping_bind {A B} (m : M A) (k : A -> M B) :
  Keeping cfg m -> (forall a, Keeping cfg (k a)) -> Keeping cfg (bind m k).
Proof.
  intros Hm Hk w Hw. unfold bind. specialize (Hm w Hw).
  destruct (m w) as [[a|e] w1]; simpl in *; [|done]. by apply Hk.
Qed.

Lemma keeping_shrink (f : gmap Token RefreshTokenData.t -> gmap Token RefreshTokenData.t) :
  (forall m, f m ⊆ m) -> Keeping cfg (modify (set_store f)).
Proof.
  intros Hf w Hw token data Hl. apply Hw.
  eapply lookup_weaken; [exact Hl | apply Hf].
Qed.

Lemma keeping_blacklist (f : gset string -> gset string) :
  Keeping cfg (modify (set_blacklist f)).
Proof. by intros w. Qed.

Lemma keeping_issueTokenPair clock address tokenId extra :
  Keeping cfg (issueTokenPair cfg env clock address tokenId (jwtSecret cfg) extra).
Proof.
  intros w Hw.
  destruct (issueTokenPair_minted cfg env clock address tokenId (jwtSecret cfg) extra w)
    as (pair & w' & Heq & Hm).
  rewrite Heq. simpl. intros token data.
  rewrite (minted_store _ _ _ _ _ _ _ _ _ _ Hm).
  rewrite lookup_insert_Some. intros [[<- <-] | [_ Hl]]; [|by apply Hw].
  rewrite (minted_refresh _ _ _ _ _ _ _ _ _ _ Hm).
  eexists. split; [reflexivity|]. simpl. split_and!; reflexivity.
Qed.

Lemma keeping_revokeToken jti : Keeping cfg (revokeToken jti).
Proof.
  apply keeping_bind; [apply keeping_blacklist|].
  intros _. apply keeping_shrink. intros m. apply map_filter_subseteq.
Qed.

Lemma keeping_refreshAccessToken now clock token :
  Keeping cfg (refreshAccessToken cfg env now clock token (jwtSecret cfg)).
Proof.
  unfold refreshAccessToken.
  destruct (Jwt.verify now (Some token) (jwtSecret cfg)) as [e|decoded];
    [apply keeping_pure|].
  destruct (negb _); [apply keeping_pure|].
  apply keeping_bind; [apply keeping_gets|].
  intros [storedData|]; [|apply keeping_pure].
  apply keeping_bind; [apply keeping_gets|].
  intros [].
  - apply keeping_bind; [|intros _; apply keeping_pure].
    apply keeping_shrink. intros m. apply delete_subseteq.
  - apply keeping_bind; [apply keeping_revokeToken|].
    intros _. apply keeping_bind; [|intros _; apply keeping_issueTokenPair].
    apply keeping_shrink. intros m. apply delete_subseteq.
Qed.

Lemma keeping_queryBalance now contract wallet tokenId :
  Keeping cfg (queryBalance env now contract wallet tokenId).
Proof.
  intros w Hw. unfold queryBalance.
  by destruct (balanceOf env now contract wallet tokenId).
Qed.

Lemma keeping_issued {A} clock address tokenId extra (f : TokenPair.t -> A) :
  Keeping cfg
    (do tokens <- issueTokenPair cfg env clock address tokenId (jwtSecret cfg) extra;
     ret (f tokens)).
Proof.
  apply keeping_bind; [apply keeping_issueTokenPair|].
  intros tokens. apply keeping_pure.
Qed.

Lemma keeping_exec c : Keeping cfg (fun w => (Return tt, exec cfg env w c)).
Proof.
  intros w Hw. destruct c; simpl.
  - apply (keeping_bind (queryBalance env now _ _ _)); [apply keeping_queryBalance| |done].
    intros balance. destruct (N.eqb balance 0); [apply keeping_pure|].
    apply keeping_issued.
  - unfold issueDynamicJwt.
    destruct (negb (isAddress env _)); [done|].
    destruct (negb (isAddress env _)); [done|].
    destruct (DynamicAuthRequest.tokenId authRequest) as [tokenId|]; [|done].
    destruct (Z.ltb tokenId 0); [done|].
    apply (keeping_bind (queryBalance env now _ _ _)); [apply keeping_queryBalance| |done].
    intros balance. destruct (N.eqb balance 0); [apply keeping_pure|].
    apply keeping_issued.
  - apply (keeping_bind (refreshAccessToken cfg env now clock refreshToken (jwtSecret cfg)));
      [apply keeping_refreshAccessToken| |done].
    intros tokens. apply keeping_pure.
  - by apply keeping_revokeToken.
  - apply (keeping_shrink _ (fun m => map_filter_subseteq _ m)). done.
Qed.

End StoreKeys.

Lemma reachable_well_keyed cfg env calls :
  storeWellKeyed cfg (execAll cfg env calls initialWorld).
Proof.
  assert (Hall : forall w, storeWellKeyed cfg w ->
                   storeWellKeyed cfg (execAll cfg env calls w)).
  { induction calls as [|c calls IH]; intros w Hw; simpl; [done|].
    apply IH. by apply (keeping_exec cfg env c w). }
  apply Hall. intros token data. simpl. by rewrite lookup_empty.
Qed.

(** In every world reachable from the initial one, every Session Record
    is keyed by a refresh credential signed with the configured secret
    whose subject, token id and identifier are the recorded ones and whose
    expiry is its own issued-at second plus the configured refresh
    lifetime; an access credential is never a key of the store. *)
Theorem reachable_store_well_keyed cfg env calls :
  storeWellKeyed cfg (execAll cfg env calls initialWorld) /\
  (forall p secret,
     Claims.type p = "access" ->
     refreshTokenStore (execAll cfg env calls initialWorld) !! Signed p secret = None).
Proof.
  pose proof (reachable_well_keyed cfg env calls) as Hreach.
  split; [exact Hreach|].
  intros p secret Hty.
  destruct (refreshTokenStore _ !! Signed p secret) as [data|] eqn:Hl; [|done].
  destruct (Hreach _ _ Hl) as (q & [= <- _] & Hq & _). congruence.
Qed.

(** ** [cleanupExpiredTokens] *)

Lemma cleanup_lookup now w token data :
  refreshTokenStore (cleanupExpiredTokens now w).2 !! token = Some data <->
  refreshTokenStore w !! token = Some data /\
  exists p, Jwt.decode token = Some p /\ Jwt.clockTimestamp now <= Claims.exp p.
Proof.
  unfold cleanupExpiredTokens, modify. simpl.
  rewrite map_lookup_filter_Some. unfold expiredKey. simpl.
  destruct (Jwt.decode token) as [p|].
  - rewrite bool_decide_eq_false. split.
    + intros [Hl Hn]. split; [done|]. exists p. split; [done | lia].
    + intros [Hl (q & [= <-] & Hq)]. split; [done | lia].
  - split; [intros [_ [=]] | intros [_ (q & [=] & _)]].
Qed.

(** The cleanup keeps exactly the records whose key decodes to an expiry
    not before the clock second (a record at its very expiry second is
    kept), and touches neither the revocation set nor the random
    source. *)
Theorem cleanup_effect now w :
  (forall token data,
     refreshTokenStore (cleanupExpiredTokens now w).2 !! token = Some data <->
     refreshTokenStore w !! token = Some data /\
     exists p, Jwt.decode token = Some p /\ Jwt.clockTimestamp now <= Claims.exp p) /\
  tokenBlacklist (cleanupExpiredTokens now w).2 = tokenBlacklist w /\
  randomDraws (cleanupExpiredTokens now w).2 = randomDraws w.
Proof. split; [apply cleanup_lookup | done]. Qed.

(** In a reachable world the cleanup drops a record exactly when the
    clock second has passed the issued-at second of the record's key plus
    the refresh lifetime.  The age is measured on the key, the refresh
    credential itself, and not on the recorded [createdAt]. *)
Theorem cleanup_drops_by_age cfg env calls now token data :
  refreshTokenStore (execAll cfg env calls initialWorld) !! token = Some data ->
  (refreshTokenStore
     (cleanupExpiredTokens now (execAll cfg env calls initialWorld)).2 !! token = None <->
   Claims.iat (claimsOf token) + REFRESH_TOKEN_EXPIRY cfg `div` 1000
     < Jwt.clockTimestamp now).
Proof.
  intros Hl.
  destruct (reachable_well_keyed cfg env calls _ _ Hl)
    as (p & -> & _ & _ & _ & _ & Hexp).
  pose proof (cleanup_lookup now (execAll cfg env calls initialWorld)) as Hkeep.
  change (claimsOf (Signed p (jwtSecret cfg))) with p.
  rewrite <- Hexp. split.
  - intros Hnone. apply Z.nle_gt. intros Hle.
    assert (Hsome : refreshTokenStore
              (cleanupExpiredTokens now (execAll cfg env calls initialWorld)).2
              !! Signed p (jwtSecret cfg) = Some data).
    { apply Hkeep. split; [done|]. exists p. done. }
    congruence.
  - intros Hlt. apply eq_None_not_Some. intros [data' Hsome].
    apply Hkeep in Hsome as [_ (q & [= <-] & Hq)]. lia.
Qed.

Lemma cleanup_drops_by_age_witness :
  refreshTokenStore (cleanupExpiredTokens 604801999 straddledWorld).2
    !! straddledRefresh = None <->
  1 + REFRESH_TOKEN_EXPIRY refConfig `div` 1000 < Jwt.clockTimestamp 604801999.
Proof.
  apply (cleanup_drops_by_age refConfig refEnv
           [CallIssueJwt 900 straddling alice "198.51.100.7"] 604801999
           straddledRefresh
           {| RefreshTokenData.address := alice;
              RefreshTokenData.tokenId := 0;
              RefreshTokenData.jti := "a";
              RefreshTokenData.createdAt := 0 |}).
  vm_compute. reflexivity.
Defined.

(** A cleanup is invisible to every later refresh: whatever credential
    is presented at a clock reading not before the cleanup's, the refresh
    returns or throws the same with and without the cleanup. *)
Theorem cleanup_unobserved_by_refresh cfg env now w now' clock' r secret :
  now <= now' ->
  (refreshAccessToken cfg env now' clock' r secret (cleanupExpiredTokens now w).2).1
  = (refreshAccessToken cfg env now' clock' r secret w).1.
Proof.
  intros Hle. unfold refreshAccessToken.
  destruct (Jwt.verify now' (Some r) secret) as [e|p] eqn:Hv; [done|].
  destruct (negb _); [done|].
  apply verify_inr in Hv as [[= ->] Hexp].
  assert (Hclock : Jwt.clockTimestamp now <= Jwt.clockTimestamp now').
  { unfold Jwt.clockTimestamp. apply Z.div_le_mono; lia. }
  assert (Hl : refreshTokenStore (cleanupExpiredTokens now w).2 !! Signed p secret
               = refreshTokenStore w !! Signed p secret).
  { apply option_eq. intros data.
    rewrite cleanup_lookup. split; [by intros [? _]|].
    intros Hl. split; [done|]. exists p. split; [done | lia]. }
  unfold bind, gets, revokeToken, modify, bind, throw, isTokenRevoked.
  cbn beta iota. rewrite Hl.
  destruct (refreshTokenStore w !! Signed p secret) as [data|]; [|done].
  change (tokenBlacklist (cleanupExpiredTokens now w).2) with (tokenBlacklist w).
  case_bool_decide; [done|]. cbn beta iota.
  cbv [issueTokenPair bind generateJti modify ret]. reflexivity.
Qed.

Lemma cleanup_unobserved_by_refresh_witness :
  (refreshAccessToken refConfig refEnv 5000 (instant 5000) aliceRefresh
     (jwtSecret refConfig) (cleanupExpiredTokens 2000 aliceWorld).2).1
  = (refreshAccessToken refConfig refEnv 5000 (instant 5000) aliceRefresh
       (jwtSecret refConfig) aliceWorld).1.
Proof.
  apply (cleanup_unobserved_by_refresh refConfig refEnv 2000 aliceWorld 5000
           (instant 5000) aliceRefresh (jwtSecret refConfig)).
  lia.
Defined.

(** ** The gate, completed *)

(** The admission criterion of the gate: a request is admitted with
    payload [p] exactly when its header has a second part that verifies
    under the configured secret to [p], [p] is of kind [access], its
    identifier (when non-empty) is not revoked, and it either carries a
    non-empty contract claim or its token id is the configured one. *)
Theorem gate_admits_iff cfg now header w p :
  evmAuthMiddleware cfg now header w = Next p <->
  exists parts,
    header = Some parts /\
    Jwt.verify now (parts !! 1%nat) (jwtSecret cfg) = inr p /\
    Claims.type p = "access" /\
    (truthy (Claims.jti p) = true -> Claims.jti p ∉ tokenBlacklist w) /\
    (truthy_opt (Claims.contract p) = true \/
     Claims.tokenId p = requiredTokenId cfg).
Proof.
  split; [apply gate_next_inv|].
  intros (parts & -> & Hv & Hty & Hrev & Hreq).
  unfold evmAuthMiddleware. rewrite Hv, Hty. simpl.
  assert (Hchk : truthy (Claims.jti p) && isTokenRevoked (Claims.jti p) w = false).
  { destruct (truthy (Claims.jti p)); [|done]. simpl.
    apply bool_decide_eq_false. by apply Hrev. }
  rewrite Hchk. destruct Hreq as [-> | Hid]; [done|].
  destruct (truthy_opt _); [done|]. by rewrite (proj2 (Z.eqb_eq _ _) Hid).
Qed.

(** How the gate treats the header and the signature: no header is
    "Missing Authorization header"; a header without a second part, a
    second part that is not a JWT, and a credential signed with another
    secret are all "Invalid token", the last also when the credential has
    expired; and the first part of the header (the scheme word) is never
    looked at. *)
Theorem gate_header_and_signature cfg now w :
  evmAuthMiddleware cfg now None w = Unauthorized MissingAuthorizationHeader /\
  (forall only, evmAuthMiddleware cfg now (Some [only]) w = Unauthorized InvalidToken) /\
  (forall scheme raw rest,
     evmAuthMiddleware cfg now (Some (scheme :: Unparsable raw :: rest)) w
     = Unauthorized InvalidToken) /\
  (forall scheme p k rest, k <> jwtSecret cfg ->
     evmAuthMiddleware cfg now (Some (scheme :: Signed p k :: rest)) w
     = Unauthorized InvalidToken) /\
  (forall scheme token rest,
     evmAuthMiddleware cfg now (Some (scheme :: token :: rest)) w
     = evmAuthMiddleware cfg now (bearer token) w).
Proof.
  split_and!; try done.
  intros scheme p k rest Hk. unfold evmAuthMiddleware, Jwt.verify. simpl.
  by rewrite decide_False.
Qed.

(** ** [getKey] *)

(** The rate-limit key of a request with a bearer credential is the
    credential's subject, read without any verification: whatever secret
    signed it and whatever its expiry, a non-empty [sub] is the key.  The
    same holds for a bearer string that is no JWT at all: when its second
    dot-segment decodes to an object with a non-empty [sub], that [sub] is
    the key.  With no header, with a bearer string on which the decoding
    throws or finds no [sub], or with an empty [sub], the key is the
    network origin. *)
Theorem getKey_reads_unverified_subject env ip tgt :
  (forall p k rest,
     Claims.sub p <> "" ->
     getKey env {| req_ip := ip;
                   authorization := Some (Unparsable "Bearer" :: Signed p k :: rest);
                   target := tgt |} = Claims.sub p) /\
  (forall p k rest,
     Claims.sub p = "" ->
     getKey env {| req_ip := ip;
                   authorization := Some (Unparsable "Bearer" :: Signed p k :: rest);
                   target := tgt |} = ip) /\
  (forall raw rest sub,
     payloadSub env raw = Some sub ->
     sub <> "" ->
     getKey env {| req_ip := ip;
                   authorization := Some (Unparsable "Bearer" :: Unparsable raw :: rest);
                   target := tgt |} = sub) /\
  (forall raw rest,
     payloadSub env raw = None \/ payloadSub env raw = Some "" ->
     getKey env {| req_ip := ip;
                   authorization := Some (Unparsable "Bearer" :: Unparsable raw :: rest);
                   target := tgt |} = ip) /\
  getKey env {| req_ip := ip; authorization := None; target := tgt |} = ip.
Proof.
  split_and!; try done.
  - intros p k rest Hsub. unfold getKey. simpl.
    by rewrite (proj2 (truthy_true _) Hsub).
  - intros p k rest Hsub. unfold getKey. simpl. by rewrite Hsub.
  - intros raw rest sub Hraw Hsub. unfold getKey. simpl. rewrite Hraw.
    by rewrite (proj2 (truthy_true _) Hsub).
  - intros raw rest [Hraw|Hraw]; unfold getKey; simpl; by rewrite Hraw.
Qed.

Lemma getKey_reads_unverified_subject_witness :
  getKey refEnv {| req_ip := "198.51.100.7";
                   authorization :=
                     Some [Unparsable "Bearer";
                           Signed (claimsOf aliceAccess) "a secret of the caller"];
                   target := McpEndpoint |} = alice /\
  getKey refEnv {| req_ip := "198.51.100.7";
                   authorization :=
                     Some [Unparsable "Bearer"; Unparsable "x.eyJzdWIiOiJtYWxsb3J5In0"];
                   target := McpEndpoint |} = "mallory" /\
  getKey refEnv {| req_ip := "198.51.100.7";
                   authorization :=
                     Some [Unparsable "Bearer"; Unparsable "not-a-token"];
                   target := McpEndpoint |} = "198.51.100.7".
Proof.
  destruct (getKey_reads_unverified_subject refEnv "198.51.100.7" McpEndpoint)
    as (Hsub & _ & Hraw & Hnone & _).
  split_and!.
  - apply (Hsub (claimsOf aliceAccess) "a secret of the caller" []).
    discriminate.
  - apply (Hraw "x.eyJzdWIiOiJtYWxsb3J5In0" [] "mallory"); [reflexivity | discriminate].
  - apply (Hnone "not-a-token" []). left. reflexivity.
Defined.

(** ** The limiters *)

Lemma applyAll_app opts reqs1 reqs2 store :
  applyAll opts (reqs1 ++ reqs2) store =
    ((applyAll opts reqs1 store).1 ++
     (applyAll opts reqs2 (applyAll opts reqs1 store).2).1,
     (applyAll opts reqs2 (applyAll opts reqs1 store).2).2)%list.
Proof.
  revert store. induction reqs1 as [|[now req] reqs1 IH]; intros store.
  - simpl. by destruct (applyAll opts reqs2 store).
  - cbn [app applyAll].
    destruct (RateLimit.apply opts now req store) as [limited store1].
    rewrite IH. destruct (applyAll opts reqs1 store1) as [results store2].
    simpl. by destruct (applyAll opts reqs2 store2).
Qed.

Lemma applyAll_counting opts req times store h r :
  store !! RateLimit.keyGenerator opts req
    = Some {| RateLimit.totalHits := h; RateLimit.resetTime := r |} ->
  Forall (fun t => t < r) times ->
  (applyAll opts (map (fun t => (t, req)) times) store).1
  = map (fun i : nat =>
           if decide (RateLimit.max opts < h + 1 + Z.of_nat i) then Some r else None)
        (seq 0 (length times)) /\
  (applyAll opts (map (fun t => (t, req)) times) store).2
    !! RateLimit.keyGenerator opts req
  = Some {| RateLimit.totalHits := h + Z.of_nat (length times);
            RateLimit.resetTime := r |}.
Proof.
  revert store h. induction times as [|t times IH]; intros store h Hl Hall.
  { simpl. split; [done|]. by rewrite Z.add_0_r. }
  apply Forall_cons in Hall as [Ht Hall].
  cbn [map applyAll length seq]. unfold RateLimit.apply, RateLimit.increment.
  rewrite Hl. cbn [RateLimit.resetTime RateLimit.totalHits].
  rewrite decide_False by lia. cbn [RateLimit.resetTime RateLimit.totalHits].
  match goal with
  | |- context [applyAll opts _ ?s] =>
      specialize (IH s (h + 1) (lookup_insert_eq _ _ _) Hall);
      destruct (applyAll opts (map (fun t => (t, req)) times) s) as [results s']
  end.
  simpl in IH |- *. destruct IH as [IH1 IH2]. split.
  - f_equal; [by rewrite Z.add_0_r|].
    rewrite IH1. rewrite <- seq_shift, map_map. apply map_ext. intros i.
    replace (h + 1 + 1 + Z.of_nat i) with (h + 1 + Z.of_nat (S i)) by lia. done.
  - rewrite IH2. do 2 f_equal. lia.
Qed.

Lemma applyAll_first_window opts req first times store :
  store !! RateLimit.keyGenerator opts req = None ->
  Forall (fun t => t < first + RateLimit.windowMs opts) times ->
  (applyAll opts (map (fun t => (t, req)) (first :: times)) store).1
  = map (fun i : nat =>
           if decide (RateLimit.max opts < Z.of_nat (S i))
           then Some (first + RateLimit.windowMs opts) else None)
        (seq 0 (S (length times))) /\
  (applyAll opts (map (fun t => (t, req)) (first :: times)) store).2
    !! RateLimit.keyGenerator opts req
  = Some {| RateLimit.totalHits := Z.of_nat (S (length times));
            RateLimit.resetTime := first + RateLimit.windowMs opts |}.
Proof.
  intros Hl Hall.
  cbn [map applyAll length seq]. unfold RateLimit.apply, RateLimit.increment.
  rewrite Hl. cbn [RateLimit.resetTime RateLimit.totalHits].
  match goal with
  | |- context [applyAll opts _ ?s] =>
      pose proof (applyAll_counting opts req times s 1
                    (first + RateLimit.windowMs opts)
                    (lookup_insert_eq _ _ _) Hall) as [Hrest Hend];
      destruct (applyAll opts (map (fun t => (t, req)) times) s) as [results s']
  end.
  simpl in Hrest, Hend |- *. split.
  - f_equal. rewrite Hrest.
    rewrite <- seq_shift, map_map. apply map_ext. intros i.
    replace (1 + 1 + Z.of_nat i) with (Z.of_nat (S (S i))) by lia. done.
  - rewrite Hend. do 2 f_equal. lia.
Qed.

(** Fixed-window counting of a limiter: for a key without a counter, the
    first request opens a window of [windowMs]; of the requests made
    before the window ends, the [k]-th in all is answered 429 exactly when
    [k] exceeds [max], with the end of the window as retry time. *)
Theorem limiter_counts_within_window opts req first times store :
  store !! RateLimit.keyGenerator opts req = None ->
  Forall (fun t => t < first + RateLimit.windowMs opts) times ->
  (applyAll opts (map (fun t => (t, req)) (first :: times)) store).1
  = map (fun i : nat =>
           if decide (RateLimit.max opts < Z.of_nat (S i))
           then Some (first + RateLimit.windowMs opts) else None)
        (seq 0 (S (length times))).
Proof.
  intros Hl Hall. exact (proj1 (applyAll_first_window opts req first times store Hl Hall)).
Qed.

Lemma limiter_counts_within_window_witness :
  (applyAll (authLimiter refEnv)
     (map (fun t => (t, {| req_ip := "198.51.100.7"; authorization := None;
                           target := PostAuth (Some bob) |}))
        [1000; 2000; 3000; 4000; 5000; 6000; 7000]) ∅).1
  = [None; None; None; None; None; Some 901000; Some 901000].
Proof.
  apply (limiter_counts_within_window (authLimiter refEnv)
           {| req_ip := "198.51.100.7"; authorization := None;
              target := PostAuth (Some bob) |}
           1000 [2000; 3000; 4000; 5000; 6000; 7000] ∅).
  - apply lookup_empty.
  - repeat constructor.
Defined.

(** A window that has ended is forgotten: after any number of requests
    of one key within its window, a request at or after the end of the
    window is counted as the first of a new window and passes (the
    limiter allowing at least one request), however many requests the old
    window saw. *)
Theorem limiter_resets_after_window opts req first times later store :
  store !! RateLimit.keyGenerator opts req = None ->
  Forall (fun t => t < first + RateLimit.windowMs opts) times ->
  first + RateLimit.windowMs opts <= later ->
  1 <= RateLimit.max opts ->
  (applyAll opts (map (fun t => (t, req)) ((first :: times) ++ [later])) store).1
  = ((applyAll opts (map (fun t => (t, req)) (first :: times)) store).1 ++ [None])%list /\
  (applyAll opts (map (fun t => (t, req)) ((first :: times) ++ [later])) store).2
    !! RateLimit.keyGenerator opts req
  = Some {| RateLimit.totalHits := 1;
            RateLimit.resetTime := later + RateLimit.windowMs opts |}.
Proof.
  intros Hl Hall Hlater Hmax.
  destruct (applyAll_first_window opts req first times store Hl Hall) as [_ Hend].
  rewrite map_app, applyAll_app. cbn [fst snd].
  destruct (applyAll opts (map (fun t => (t, req)) (first :: times)) store)
    as [results store'].
  cbn [fst snd] in Hend |- *.
  cbn [map applyAll]. unfold RateLimit.apply, RateLimit.increment.
  rewrite Hend. cbn [RateLimit.resetTime RateLimit.totalHits].
  destruct (decide (first + RateLimit.windowMs opts <= later)); [|lia].
  cbn [RateLimit.resetTime RateLimit.totalHits].
  rewrite decide_False by lia. cbn [fst snd]. split; [done|].
  apply lookup_insert_eq.
Qed.

Lemma limiter_resets_after_window_witness :
  (applyAll (authLimiter refEnv)
     (map (fun t => (t, {| req_ip := "198.51.100.7"; authorization := None;
                           target := PostAuth (Some bob) |}))
        ([1000; 2000; 3000; 4000; 5000; 6000] ++ [901000])) ∅).1
  = ((applyAll (authLimiter refEnv)
        (map (fun t => (t, {| req_ip := "198.51.100.7"; authorization := None;
                              target := PostAuth (Some bob) |}))
           [1000; 2000; 3000; 4000; 5000; 6000]) ∅).1 ++ [None])%list.
Proof.
  refine (proj1 (limiter_resets_after_window (authLimiter refEnv)
           {| req_ip := "198.51.100.7"; authorization := None;
              target := PostAuth (Some bob) |}
           1000 [2000; 3000; 4000; 5000; 6000] 901000 ∅ _ _ _ _)).
  - apply lookup_empty.
  - repeat constructor.
  - simpl. lia.
  - simpl. lia.
Defined.

(** Counters are per key: requests whose keys are pairwise distinct and
    have no counter yet are never answered 429 by a limiter that allows at
    least one request, however many they are and whenever they come. *)
Theorem distinct_keys_never_limited opts reqs store :
  1 <= RateLimit.max opts ->
  NoDup (map (fun tr : Z * Request => RateLimit.keyGenerator opts tr.2) reqs) ->
  Forall (fun tr : Z * Request =>
            store !! RateLimit.keyGenerator opts tr.2 = None) reqs ->
  (applyAll opts reqs store).1 = replicate (length reqs) None.
Proof.
  intros Hmax. revert store.
  induction reqs as [|[now req] reqs IH]; intros store Hnd Hnone; [done|].
  apply NoDup_cons in Hnd as [Hnotin Hnd].
  apply Forall_cons in Hnone as [Hfirst Hnone]. simpl in Hfirst, Hnotin.
  cbn [applyAll length replicate]. unfold RateLimit.apply, RateLimit.increment.
  rewrite Hfirst. cbn [RateLimit.resetTime RateLimit.totalHits].
  rewrite decide_False by lia.
  match goal with
  | |- context [applyAll opts reqs ?s] =>
      specialize (IH s Hnd);
      destruct (applyAll opts reqs s) as [results s']
  end.
  simpl in IH |- *. f_equal. apply IH.
  apply Forall_forall. intros [t r] Hin.
  rewrite Forall_forall in Hnone. specialize (Hnone _ Hin). simpl in Hnone |- *.
  rewrite lookup_insert_ne; [done|].
  intros Heq. apply Hnotin. rewrite Heq.
  apply (list_elem_of_fmap_2 (fun tr : Z * Request => RateLimit.keyGenerator opts tr.2)
           _ (t, r) Hin).
Qed.

Lemma distinct_keys_never_limited_witness :
  (applyAll (authLimiter refEnv)
     [(1000, {| req_ip := "198.51.100.7";
                authorization := bearer (Signed (claimsOf aliceAccess) "x");
                target := PostAuth (Some bob) |});
      (1001, {| req_ip := "198.51.100.7";
                authorization := bearer (Signed (Claims.mk bob 0 "" "access" None None 0 0) "x");
                target := PostAuth (Some bob) |});
      (1002, {| req_ip := "198.51.100.7"; authorization := None;
                target := PostAuth (Some bob) |})] ∅).1
  = [None; None; None].
Proof.
  apply (distinct_keys_never_limited (authLimiter refEnv)
     [(1000, {| req_ip := "198.51.100.7";
                authorization := bearer (Signed (claimsOf aliceAccess) "x");
                target := PostAuth (Some bob) |});
      (1001, {| req_ip := "198.51.100.7";
                authorization := bearer (Signed (Claims.mk bob 0 "" "access" None None 0 0) "x");
                target := PostAuth (Some bob) |});
      (1002, {| req_ip := "198.51.100.7"; authorization := None;
                target := PostAuth (Some bob) |})] ∅).
  - simpl. lia.
  - apply (bool_decide_unpack _). vm_compute. reflexivity.
  - repeat constructor.
Defined.

(** ** The routes *)

(** A request on the issuance route that the authentication limiter
    answers with 429 does no work: when the caller's counter already
    stands at 5 or more in a running window (and the general limiter lets
    the request through), the answer is 429 with the end of that window,
    and the world is untouched: no oracle query, no record, no draw. *)
Theorem limited_issuance_does_no_work cfg env now clock req address srv c hits :
  target req = PostAuth address ->
  RateLimit.apply generalLimiter now req (generalHits srv) = (None, hits) ->
  authHits srv !! getKey env req = Some c ->
  now < RateLimit.resetTime c ->
  5 <= RateLimit.totalHits c ->
  (handle cfg env now clock req srv).1 = TooManyRequests429 AuthLimiter (RateLimit.resetTime c) /\
  world (handle cfg env now clock req srv).2 = world srv /\
  authHits (handle cfg env now clock req srv).2 !! getKey env req
  = Some {| RateLimit.totalHits := RateLimit.totalHits c + 1;
            RateLimit.resetTime := RateLimit.resetTime c |}.
Proof.
  intros Ht Hgen Hl Hnow Hhits.
  unfold handle. rewrite Ht. unfold withGeneralLimiter. rewrite Hgen.
  unfold withAuthLimiter, RateLimit.apply, RateLimit.increment.
  cbn [authHits RateLimit.keyGenerator authLimiter]. rewrite Hl.
  destruct (decide (RateLimit.resetTime c <= now)); [lia|].
  cbn [RateLimit.max RateLimit.totalHits RateLimit.resetTime authLimiter].
  rewrite decide_True by lia. simpl. split_and!; [done | done |].
  apply lookup_insert_eq.
Qed.

Lemma limited_issuance_does_no_work_witness :
  (handle refConfig refEnv 6000 (instant 6000)
     {| req_ip := "198.51.100.7"; authorization := None;
        target := PostAuth (Some alice) |}
     {| generalHits := ∅;
        authHits := {[ "198.51.100.7" :=
                         {| RateLimit.totalHits := 5; RateLimit.resetTime := 901000 |} ]};
        mcpHits := ∅; world := initialWorld |}).1
  = TooManyRequests429 AuthLimiter 901000.
Proof.
  refine (proj1 (limited_issuance_does_no_work refConfig refEnv 6000 (instant 6000)
     {| req_ip := "198.51.100.7"; authorization := None;
        target := PostAuth (Some alice) |}
     (Some alice)
     {| generalHits := ∅;
        authHits := {[ "198.51.100.7" :=
                         {| RateLimit.totalHits := 5; RateLimit.resetTime := 901000 |} ]};
        mcpHits := ∅; world := initialWorld |}
     {| RateLimit.totalHits := 5; RateLimit.resetTime := 901000 |}
     _ _ _ _ _ _)).
  - reflexivity.
  - reflexivity.
  - apply lookup_singleton_eq.
  - simpl. lia.
  - simpl. lia.
Defined.




(** The protected routes are reached only through the gate: whenever a
    request arrives at the protected-resource handler with payload [p], or
    a revocation request is answered with success, the gate has admitted
    the request's credential in the world the request found. *)
Theorem protected_routes_require_admission cfg env now clock req srv :
  (forall p,
     (handle cfg env now clock req srv).1 = McpHandler p ->
     evmAuthMiddleware cfg now (authorization req) (world srv) = Next p) /\
  ((handle cfg env now clock req srv).1 = RevokeSuccess200 ->
     exists p jti,
       target req = PostAuthRevoke (Some jti) /\
       evmAuthMiddleware cfg now (authorization req) (world srv) = Next p).
Proof.
  assert (Hrespond : forall m srv0 r,
    (respond m srv0).1 = r -> (forall p, r <> McpHandler p) /\ r <> RevokeSuccess200).
  { intros m srv0 r <-. unfold respond.
    destruct (m (world srv0)) as [[t|e] w]; by split. }
  unfold handle.
  destruct (target req) as [address|refreshToken|wallet contract tokenId|jti| | | |];
    [unfold withGeneralLimiter;
     (destruct (RateLimit.apply generalLimiter now req (generalHits srv))
        as [[retryAfter|] hits]; [by split|]).. | by split].
  - unfold withAuthLimiter.
    destruct (RateLimit.apply (authLimiter env) now req _) as [[retry|] hits']; [by split|].
    unfold authHandler. destruct address as [a|]; [|by split].
    destruct (truthy a); [|by split].
    match goal with
    | |- context [respond ?m ?s] =>
        destruct (Hrespond m s _ eq_refl) as [H1 H2]
    end.
    split; [intros p Hp; by destruct (H1 p) | intros Hp; by destruct H2].
  - unfold refreshHandler.
    destruct refreshToken as [[p k|raw]|]; [| |by split].
    + match goal with
      | |- context [respond ?m ?s] =>
          destruct (Hrespond m s _ eq_refl) as [H1 H2]
      end.
      split; [intros q Hq; by destruct (H1 q) | intros Hq; by destruct H2].
    + destruct raw; [by split|].
      match goal with
      | |- context [respond ?m ?s] =>
          destruct (Hrespond m s _ eq_refl) as [H1 H2]
      end.
      split; [intros q Hq; by destruct (H1 q) | intros Hq; by destruct H2].
  - unfold withAuthLimiter.
    destruct (RateLimit.apply (authLimiter env) now req _) as [[retry|] hits']; [by split|].
    unfold dynamicAuthHandler.
    destruct wallet as [wl|]; [|by split].
    destruct contract as [c|]; [|by split].
    destruct tokenId as [n|]; [|by split].
    destruct (truthy wl && truthy c); [|by split].
    match goal with
    | |- context [respond ?m ?s] =>
        destruct (Hrespond m s _ eq_refl) as [H1 H2]
    end.
    split; [intros q Hq; by destruct (H1 q) | intros Hq; by destruct H2].
  - unfold withGate. cbn [world].
    destruct (evmAuthMiddleware cfg now (authorization req) (world srv))
      as [p|e]; [|by split].
    unfold revokeHandler. destruct (authorization req); [|by split].
    destruct jti as [j|]; [|by split].
    destruct (truthy j); [|by split].
    split; [done|]. intros _. by exists p, j.
  - unfold withMcpLimiter.
    destruct (RateLimit.apply (mcpLimiter env) now req _) as [[retry|] hits']; [by split|].
    unfold withGate. cbn [world].
    destruct (evmAuthMiddleware cfg now (authorization req) (world srv))
      as [p|e]; [|by split].
        split; [by intros q [= ->] | done].
  - by split.
  - by split.
Qed.

Lemma protected_routes_require_admission_witness :
  evmAuthMiddleware refConfig 2000 (bearer aliceAccess) aliceWorld
  = Next (claimsOf aliceAccess).
Proof.
  destruct (protected_routes_require_admission refConfig refEnv 2000 (instant 2000)
     {| req_ip := "198.51.100.7"; authorization := bearer aliceAccess;
        target := McpEndpoint |}
     {| generalHits := ∅; authHits := ∅; mcpHits := ∅; world := aliceWorld |})
    as [Hmcp _].
  apply Hmcp. vm_compute. reflexivity.
Defined.

(** The revocation route blacklists whatever identifier the body names:
    when the gate admits the caller's credential and the general limiter
    lets the request through, a non-empty [jti] of the body is revoked,
    whether or not it is the identifier of the caller's own credential;
    when the gate rejects, the world is unchanged. *)
Theorem revocation_route cfg env now clock req jti srv hits :
  target req = PostAuthRevoke (Some jti) ->
  jti <> "" ->
  RateLimit.apply generalLimiter now req (generalHits srv) = (None, hits) ->
  (forall p,
     evmAuthMiddleware cfg now (authorization req) (world srv) = Next p ->
     (handle cfg env now clock req srv).1 = RevokeSuccess200 /\
     world (handle cfg env now clock req srv).2 = (revokeToken jti (world srv)).2 /\
     isTokenRevoked jti (world (handle cfg env now clock req srv).2) = true) /\
  (forall e,
     evmAuthMiddleware cfg now (authorization req) (world srv) = Unauthorized e ->
     (handle cfg env now clock req srv).1 = Gate401 e /\
     world (handle cfg env now clock req srv).2 = world srv).
Proof.
  intros Ht Hne Hgen. unfold handle. rewrite Ht. unfold withGeneralLimiter. rewrite Hgen.
  unfold withGate. cbn [world]. split.
  - intros p Hp. rewrite Hp. unfold revokeHandler.
    destruct (authorization req) as [parts|] eqn:Hh; [|discriminate].
    rewrite (proj2 (truthy_true jti) Hne). cbn [fst snd world].
    split_and!; [done | done |].
    apply revokeToken_revokes.
  - intros e He. rewrite He. done.
Qed.

Lemma revocation_route_witness :
  isTokenRevoked "an identifier of somebody else"
    (world (handle refConfig refEnv 2000 (instant 2000)
       {| req_ip := "198.51.100.7"; authorization := bearer aliceAccess;
          target := PostAuthRevoke (Some "an identifier of somebody else") |}
       {| generalHits := ∅; authHits := ∅; mcpHits := ∅; world := aliceWorld |}).2)
  = true.
Proof.
  destruct (revocation_route refConfig refEnv 2000 (instant 2000)
     {| req_ip := "198.51.100.7"; authorization := bearer aliceAccess;
        target := PostAuthRevoke (Some "an identifier of somebody else") |}
     "an identifier of somebody else"
     {| generalHits := ∅; authHits := ∅; mcpHits := ∅; world := aliceWorld |}
     (<[ "198.51.100.7" :=
           {| RateLimit.totalHits := 1; RateLimit.resetTime := 2000 + 900000 |} ]> ∅))
    as [Hadmit _].
  - reflexivity.
  - discriminate.
  - reflexivity.
  - apply (Hadmit (claimsOf aliceAccess)). vm_compute. reflexivity.
Defined.

(** ** Growth of the session store *)

(** The store grows by at most one record per issuance and never through
    a refresh: a successful refresh leaves at most as many Session Records
    as it found, and a failed one never more. *)
Theorem refresh_never_grows_store cfg env now clock r secret w :
  (size (refreshTokenStore (refreshAccessToken cfg env now clock r secret w).2)
   <= size (refreshTokenStore w))%nat /\
  (forall address tokenId extra,
     (size (refreshTokenStore
              (issueTokenPair cfg env clock address tokenId secret extra w).2)
      <= S (size (refreshTokenStore w)))%nat).
Proof.
  assert (Hmint : forall address tokenId extra w0,
    (size (refreshTokenStore
             (issueTokenPair cfg env clock address tokenId secret extra w0).2)
     <= S (size (refreshTokenStore w0)))%nat).
  { intros address tokenId extra w0.
    destruct (issueTokenPair_minted cfg env clock address tokenId secret extra w0)
      as (pair & w' & Heq & Hm).
    rewrite Heq. simpl. rewrite (minted_store _ _ _ _ _ _ _ _ _ _ Hm).
    rewrite map_size_insert. destruct (_ !! _); unfold id; lia. }
  split; [|intros; apply Hmint].
  unfold refreshAccessToken.
  destruct (Jwt.verify now (Some r) secret) as [e|p]; [done|].
  destruct (negb _); [done|].
  unfold bind at 1, gets.
  destruct (refreshTokenStore w !! r) as [data|] eqn:Hl; [|done].
  unfold bind at 1, gets. destruct (isTokenRevoked _ w).
  - unfold bind, modify, throw. simpl.
    apply map_subseteq_size, delete_subseteq.
  - unfold bind, revokeToken, modify, bind. cbn beta iota.
    etrans; [apply Hmint|]. simpl.
    assert (Hsub : delete r
              (filter (fun kv : Token * RefreshTokenData.t =>
                         RefreshTokenData.jti kv.2 ≠ RefreshTokenData.jti data)
                 (refreshTokenStore w))
              ⊆ delete r (refreshTokenStore w)).
    { apply delete_mono, map_filter_subseteq. }
    apply map_subseteq_size in Hsub.
    rewrite (map_size_delete_Some r (refreshTokenStore w)) in Hsub by eauto.
    assert (size (refreshTokenStore w) <> 0)%nat.
    { intros Hz. apply map_size_empty_inv in Hz. rewrite Hz in Hl.
      by rewrite lookup_empty in Hl. }
    lia.
Qed.

(** ** Requests that lack a field *)

(** A request answered with 400 has done nothing: whenever a route
    answers "Missing ..." (no or empty address, refresh token, wallet,
    contract, token id or jti), the world is as the request found it. *)
Theorem bad_request_changes_nothing cfg env now clock req srv message :
  (handle cfg env now clock req srv).1 = BadRequest400 message ->
  world (handle cfg env now clock req srv).2 = world srv.
Proof.
  assert (Hrespond : forall m srv0, (respond m srv0).1 <> BadRequest400 message).
  { intros m srv0. unfold respond. by destruct (m (world srv0)) as [[t|e] w]. }
  unfold handle.
  destruct (target req) as [address|refreshToken|wallet contract tokenId|jti| | | |];
    [unfold withGeneralLimiter;
     (destruct (RateLimit.apply generalLimiter now req (generalHits srv))
        as [[retry|] hits]; [done|]).. | done].
  - unfold withAuthLimiter.
    destruct (RateLimit.apply (authLimiter env) now req _) as [[r|] hits']; [done|].
    unfold authHandler. destruct address as [a|]; [|done].
    destruct (truthy a); [|done]. intros H. by apply Hrespond in H.
  - unfold refreshHandler.
    destruct refreshToken as [[p k|raw]|]; [| |done].
    + intros H. by apply Hrespond in H.
    + destruct raw; [done|]. intros H. by apply Hrespond in H.
  - unfold withAuthLimiter.
    destruct (RateLimit.apply (authLimiter env) now req _) as [[r|] hits']; [done|].
    unfold dynamicAuthHandler.
    destruct wallet as [wl|]; [|done].
    destruct contract as [c|]; [|done].
    destruct tokenId as [n|]; [|done].
    destruct (truthy wl && truthy c); [|done]. intros H. by apply Hrespond in H.
  - unfold withGate. destruct (evmAuthMiddleware _ _ _ _); [|done].
    unfold revokeHandler. destruct (authorization req); [|done].
    destruct jti as [j|]; [|done]. by destruct (truthy j).
  - unfold withMcpLimiter.
    destruct (RateLimit.apply (mcpLimiter env) now req _) as [[r|] hits']; [done|].
        unfold withGate. by destruct (evmAuthMiddleware _ _ _ _).
  - done.
  - done.
Qed.

Lemma bad_request_changes_nothing_witness :
  world (handle refConfig refEnv 2000 (instant 2000)
           {| req_ip := "198.51.100.7"; authorization := None;
              target := PostAuthDynamic (Some alice) (Some "") (Some (JsInt 42)) |}
           {| generalHits := ∅; authHits := ∅; mcpHits := ∅;
              world := aliceWorld |}).2
  = aliceWorld.
Proof.
  apply (bad_request_changes_nothing refConfig refEnv 2000 (instant 2000)
           {| req_ip := "198.51.100.7"; authorization := None;
              target := PostAuthDynamic (Some alice) (Some "") (Some (JsInt 42)) |}
           {| generalHits := ∅; authHits := ∅; mcpHits := ∅; world := aliceWorld |}
           missingRequiredFields).
  vm_compute. reflexivity.
Defined.
